(** * dc.js: the composite chart and the crossfilter base read

    A shallow embedding of
      - [src/charts/composite-chart.js]  (class [CompositeChart]), and
      - the crossfilter simple adapter   (class [CFSimpleAdapter], method [data]),
    with the properties their specification states about them; and of
      - the rendering half of the composite chart,
      - [src/charts/data-count.ts]       (class [DataCount]),
      - [src/errors.js], and
      - the heat map's [uniq],
    with further properties read off the code.

    Conventions of the embedding.
      - A JavaScript number is an exact rational, or one of NaN, +Infinity,
        -Infinity; [undefined] is a value of its own.  Rounding and the sign
        of zero are outside this model: finite arithmetic is exact, and a zero
        divisor behaves as +0.  It carries what depends on comparisons and on
        the order of calls.  What depends on the arithmetic itself, the
        alignment of the two y axes, is embedded a second time over binary64
        doubles (module [binary64]), where the operations round as they do
        in the code.
      - Child charts are duck-typed collaborators.  The composite only calls
        methods on them, so a child is any type implementing [Chart.Contract];
        a composite holds its children by value, each child once.
      - Records of a crossfilter group are objects on a heap, addressed by
        reference, because the base read is about which object is written. *)

From Stdlib Require Import QArith Qminmax Lqa Ascii Sorted.
From Stdlib Require Floats.
From stdpp Require Import base list gmap strings pretty.

(** ** JavaScript numbers *)

Module Js.

Local Open Scope Q_scope.

Inductive value : Type :=
| Undefined
| NaN
| NegInfinity
| Num (q : Q)
| Infinity.

(** [ToNumber]: the coercion every arithmetic operator applies first. *)
Definition ToNumber (v : value) : value :=
  match v with
  | Undefined => NaN
  | _ => v
  end.

(** Three-way comparison of two numbers; [None] when one of them is NaN. *)
Definition cmp (a b : value) : option comparison :=
  match ToNumber a, ToNumber b with
  | Num x, Num y => Some (x ?= y)
  | NegInfinity, NegInfinity => Some Eq
  | Infinity, Infinity => Some Eq
  | NegInfinity, (Num _ | Infinity) => Some Lt
  | Num _, Infinity => Some Lt
  | Infinity, (Num _ | NegInfinity) => Some Gt
  | Num _, NegInfinity => Some Gt
  | _, _ => None
  end.

(** [a > b], [a < b], [a >= b] and [a === b] on numbers. *)
Definition gt (a b : value) : bool :=
  match cmp a b with Some Gt => true | _ => false end.

Definition lt (a b : value) : bool :=
  match cmp a b with Some Lt => true | _ => false end.

Definition ge (a b : value) : bool :=
  match cmp a b with Some Gt | Some Eq => true | _ => false end.

Definition strict_eq (a b : value) : bool :=
  match a, b with
  | Undefined, Undefined => true
  | Undefined, _ | _, Undefined => false
  | _, _ => match cmp a b with Some Eq => true | _ => false end
  end.

Definition neg (a : value) : value :=
  match ToNumber a with
  | Num x => Num (- x)
  | Infinity => NegInfinity
  | NegInfinity => Infinity
  | _ => NaN
  end.

(** [a + b] *)
Definition add (a b : value) : value :=
  match ToNumber a, ToNumber b with
  | Num x, Num y => Num (x + y)
  | Infinity, (Num _ | Infinity) => Infinity
  | Num _, Infinity => Infinity
  | NegInfinity, (Num _ | NegInfinity) => NegInfinity
  | Num _, NegInfinity => NegInfinity
  | _, _ => NaN
  end.

(** [a - b] *)
Definition sub (a b : value) : value := add a (neg b).

(** The infinity whose sign is the sign of a nonzero product or quotient. *)
Definition signed_infinity (negative : bool) : value :=
  if negative then NegInfinity else Infinity.

Definition is_negative (v : value) : bool :=
  match v with
  | Num x => match x ?= 0 with Lt => true | _ => false end
  | NegInfinity => true
  | _ => false
  end.

Definition is_zero (v : value) : bool :=
  match v with
  | Num x => match x ?= 0 with Eq => true | _ => false end
  | _ => false
  end.

(** [a * b] *)
Definition mul (a b : value) : value :=
  match ToNumber a, ToNumber b with
  | Num x, Num y => Num (x * y)
  | (NaN | Undefined), _ | _, (NaN | Undefined) => NaN
  | x, y =>
      if is_zero x || is_zero y then NaN
      else signed_infinity (xorb (is_negative x) (is_negative y))
  end.

(** [a / b] *)
Definition div (a b : value) : value :=
  match ToNumber a, ToNumber b with
  | Num x, Num y =>
      if is_zero (Num y)
      then (if is_zero (Num x) then NaN else signed_infinity (is_negative (Num x)))
      else Num (x / y)
  | Num _, (Infinity | NegInfinity) => Num 0
  | (Infinity | NegInfinity) as x, Num y =>
      signed_infinity (xorb (is_negative x) (is_negative (Num y)))
  | _, _ => NaN
  end.

(** [Math.min(a, b)] and [Math.max(a, b)]: NaN as soon as one argument is. *)
Definition Math_min (a b : value) : value :=
  match cmp a b with
  | None => NaN
  | Some Gt => ToNumber b
  | Some _ => ToNumber a
  end.

Definition Math_max (a b : value) : value :=
  match cmp a b with
  | None => NaN
  | Some Lt => ToNumber b
  | Some _ => ToNumber a
  end.

(** [v != null] *)
Definition not_null (v : value) : bool :=
  match v with Undefined => false | _ => true end.

(** A value that compares with itself: a number other than NaN. *)
Definition comparable (v : value) : Prop := ge v v = true.

(** [ToBoolean] of an object: true whatever the object holds, an empty array
    or an empty [arguments] included. *)
Definition ToBoolean_object {A : Type} (object : A) : bool := true.

End Js.

Export Js.

(** ** d3-array: [d3.min] and [d3.max]

    The external library the chart imports as [d3].  Both skip [undefined]
    and NaN entries and answer [undefined] when nothing comparable is left. *)

Module d3.

Definition is_undefined (v : value) : bool :=
  match v with Undefined => true | _ => false end.

(** One turn of the loop of [d3.min]:
    [if (value != null && (min > value || (min === undefined && value >= value))) min = value]. *)
Definition min_step (min v : value) : value :=
  if not_null v && (gt min v || (is_undefined min && ge v v))
  then v else min.

Definition min (values : list value) : value :=
  fold_left min_step values Undefined.

Definition max_step (max v : value) : value :=
  if not_null v && (lt max v || (is_undefined max && ge v v))
  then v else max.

Definition max (values : list value) : value :=
  fold_left max_step values Undefined.

End d3.

(** ** [utils.add] *)

Module utils.

(** Modelled from the spec: [utils.add] of [core/utils], which is not among
    the sources.  The specification has the maximum extent be the children's
    maximum "plus one configured padding amount": the sum of its two
    arguments. *)
Definition add (l r : value) : value := Js.add l r.

End utils.

(** ** The chart contract

    What a composite asks of a child chart.  The child classes are not part of
    the composite: a child is any [T] that answers these methods.  [call] is
    a method call that changes the child (the setters of the overloaded
    getter/setter functions, [options] and [replaceFilter]); the others are
    reads. *)

Module Chart.

Inductive Call (any : Type) : Type :=
| Height (h : any)
| Width (w : any)
| Margins (m : any)
| Title (t : any)
| Options (opts : any)
| Colors (c : any)
| ReplaceFilter (f : any).

Arguments Height {any} h.
Arguments Width {any} w.
Arguments Margins {any} m.
Arguments Title {any} t.
Arguments Options {any} opts.
Arguments Colors {any} c.
Arguments ReplaceFilter {any} f.

Class Contract (any T : Type) : Type := {
  call : Call any -> T -> T;
  filter : T -> any;
  useRightYAxis : T -> bool;
  yAxisMin : T -> value;
  yAxisMax : T -> value;
  legendables : T -> list any
}.

End Chart.

(** ** Results of a call *)

(** What a method hands back: a value, or the chart itself for chaining. *)
Inductive returned (A : Type) : Type :=
| Value (a : A)
| This.

Arguments Value {A} a.
Arguments This {A}.

(** A call either completes with a result or throws [new Error(message)]. *)
Inductive completion (A : Type) : Type :=
| Normal (a : A)
| Throw (message : string).

Arguments Normal {A} a.
Arguments Throw {A} message.

(** [for (let i = 0; i < n; ++i) body(i)], for a bound the body leaves alone;
    also the index walk of [Array.prototype.forEach] and [reduce]. *)
Definition for_range {S : Type} (n : nat) (body : nat -> S -> S) (s : S) : S :=
  fold_left (fun s i => body i s) (seq 0 n) s.

(** ** [src/charts/composite-chart.js] *)

Module composite_chart.

(** The four endpoints [_calculateYAxisRanges] hands to the axis set-up. *)
Record Ranges : Type := {
  lyAxisMin : value;
  lyAxisMax : value;
  ryAxisMin : value;
  ryAxisMax : value
}.

Definition _alignYAxisRanges (lyAxisMin lyAxisMax ryAxisMin ryAxisMax : value) : Ranges :=
  let extentRatio := div (sub ryAxisMax ryAxisMin) (sub lyAxisMax lyAxisMin) in
  {| lyAxisMin := Math_min lyAxisMin (div ryAxisMin extentRatio);
     lyAxisMax := Math_max lyAxisMax (div ryAxisMax extentRatio);
     ryAxisMin := Math_min ryAxisMin (mul lyAxisMin extentRatio);
     ryAxisMax := Math_max ryAxisMax (mul lyAxisMax extentRatio) |}.

(** [yAxisMin()] and [yAxisMax()] of the composite itself. *)
Definition not_supported : string := "Not supported for this chart type".

Section CompositeChart.

Context {any T : Type} `{!Chart.Contract any T}.

(** The state of [CoordinateGridMixin] and of the mixins under it, as the
    composite reads it through their getters: [this.height()],
    [this.width()], [this.margins()], [this.title()], [this.colors()],
    [this.filter()] and [this.yAxisPadding()]. *)
Record Inherited : Type := {
  height : any;
  width : any;
  margins : any;
  title : any;
  colors : any;
  filter : any;
  yAxisPadding : value
}.

(** The fields of the class.  The right axis, its scale and its label belong
    to the rendering side and are left out.  [calls] is a spy: the method
    calls issued to children so far, oldest first, each with the index of the
    child that received it. *)
Record CompositeChart : Type := {
  super : Inherited;
  _children : list T;
  _childOptions : any;
  _shareColors : bool;
  _shareTitle : bool;
  _alignYAxes : bool;
  _rightAxisGridLines : option bool;
  calls : list (nat * Chart.Call any)
}.

(** [{}], and [rescale] of the coordinate grid mixin. *)
Variable empty_object : any.
Variable rescale : Inherited -> Inherited.

(** *** Field assignments *)

Definition set_super (s : Inherited) (c : CompositeChart) : CompositeChart :=
  {| super := s; _children := _children c; _childOptions := _childOptions c;
     _shareColors := _shareColors c; _shareTitle := _shareTitle c;
     _alignYAxes := _alignYAxes c; _rightAxisGridLines := _rightAxisGridLines c;
     calls := calls c |}.

Definition set_children (l : list T) (c : CompositeChart) : CompositeChart :=
  {| super := super c; _children := l; _childOptions := _childOptions c;
     _shareColors := _shareColors c; _shareTitle := _shareTitle c;
     _alignYAxes := _alignYAxes c; _rightAxisGridLines := _rightAxisGridLines c;
     calls := calls c |}.

Definition set_childOptions (o : any) (c : CompositeChart) : CompositeChart :=
  {| super := super c; _children := _children c; _childOptions := o;
     _shareColors := _shareColors c; _shareTitle := _shareTitle c;
     _alignYAxes := _alignYAxes c; _rightAxisGridLines := _rightAxisGridLines c;
     calls := calls c |}.

Definition set_shareColors (b : bool) (c : CompositeChart) : CompositeChart :=
  {| super := super c; _children := _children c; _childOptions := _childOptions c;
     _shareColors := b; _shareTitle := _shareTitle c;
     _alignYAxes := _alignYAxes c; _rightAxisGridLines := _rightAxisGridLines c;
     calls := calls c |}.

Definition set_shareTitle (b : bool) (c : CompositeChart) : CompositeChart :=
  {| super := super c; _children := _children c; _childOptions := _childOptions c;
     _shareColors := _shareColors c; _shareTitle := b;
     _alignYAxes := _alignYAxes c; _rightAxisGridLines := _rightAxisGridLines c;
     calls := calls c |}.

Definition set_alignYAxes (b : bool) (c : CompositeChart) : CompositeChart :=
  {| super := super c; _children := _children c; _childOptions := _childOptions c;
     _shareColors := _shareColors c; _shareTitle := _shareTitle c;
     _alignYAxes := b; _rightAxisGridLines := _rightAxisGridLines c;
     calls := calls c |}.

Definition set_rightAxisGridLines (b : option bool) (c : CompositeChart) : CompositeChart :=
  {| super := super c; _children := _children c; _childOptions := _childOptions c;
     _shareColors := _shareColors c; _shareTitle := _shareTitle c;
     _alignYAxes := _alignYAxes c; _rightAxisGridLines := b;
     calls := calls c |}.

Definition set_calls (l : list (nat * Chart.Call any)) (c : CompositeChart) : CompositeChart :=
  {| super := super c; _children := _children c; _childOptions := _childOptions c;
     _shareColors := _shareColors c; _shareTitle := _shareTitle c;
     _alignYAxes := _alignYAxes c; _rightAxisGridLines := _rightAxisGridLines c;
     calls := l |}.

(** [this._children[i].m(...)]: the child at index [i] takes the call, and
    the spy notes it. *)
Definition invoke (i : nat) (m : Chart.Call any) (c : CompositeChart) : CompositeChart :=
  set_calls (calls c ++ [(i, m)]) (set_children (alter (Chart.call m) i (_children c)) c).

(** *** The constructor *)

Definition new_CompositeChart (s : Inherited) : CompositeChart :=
  {| super := s;
     _children := [];
     _childOptions := empty_object;
     _shareColors := false;
     _shareTitle := true;
     _alignYAxes := false;
     _rightAxisGridLines := Some false;
     calls := [] |}.

(** The handler the constructor registers for the [filtered] event. *)
Definition on_filtered (c : CompositeChart) : CompositeChart :=
  for_range (length (_children c))
    (fun i c => invoke i (Chart.ReplaceFilter (filter (super c))) c) c.

(** *** The y axes *)

Definition _leftYAxisChildren (c : CompositeChart) : list T :=
  List.filter (fun child => negb (Chart.useRightYAxis child)) (_children c).

Definition _rightYAxisChildren (c : CompositeChart) : list T :=
  List.filter (fun child => Chart.useRightYAxis child) (_children c).

Definition _getYAxisMin (charts : list T) : list value :=
  map (fun c => Chart.yAxisMin c) charts.

Definition _yAxisMin (c : CompositeChart) : value :=
  d3.min (_getYAxisMin (_leftYAxisChildren c)).

Definition _rightYAxisMin (c : CompositeChart) : value :=
  d3.min (_getYAxisMin (_rightYAxisChildren c)).

Definition _getYAxisMax (charts : list T) : list value :=
  map (fun c => Chart.yAxisMax c) charts.

Definition _yAxisMax (c : CompositeChart) : value :=
  utils.add (d3.max (_getYAxisMax (_leftYAxisChildren c))) (yAxisPadding (super c)).

Definition _rightYAxisMax (c : CompositeChart) : value :=
  utils.add (d3.max (_getYAxisMax (_rightYAxisChildren c))) (yAxisPadding (super c)).

(** [this.alignYAxes()], a call with no argument, reads [_alignYAxes]; a
    variable declared and not assigned is [undefined]; and [ranges || {...}]
    is [ranges] once it holds an object. *)
Definition _calculateYAxisRanges (left right : bool) (c : CompositeChart) : Ranges :=
  let lyAxisMin := if left then _yAxisMin c else Undefined in
  let lyAxisMax := if left then _yAxisMax c else Undefined in
  let ryAxisMin := if right then _rightYAxisMin c else Undefined in
  let ryAxisMax := if right then _rightYAxisMax c else Undefined in
  let ranges :=
    if _alignYAxes c && left && right
    then Some (_alignYAxisRanges lyAxisMin lyAxisMax ryAxisMin ryAxisMax)
    else None in
  match ranges with
  | Some r => r
  | None => {| lyAxisMin := lyAxisMin; lyAxisMax := lyAxisMax;
               ryAxisMin := ryAxisMin; ryAxisMax := ryAxisMax |}
  end.

(** The [ranges] that [_prepareYAxis] computes before it sets up the axes. *)
Definition _prepareYAxis_ranges (c : CompositeChart) : Ranges :=
  let left := negb (length (_leftYAxisChildren c) =? 0)%nat in
  let right := negb (length (_rightYAxisChildren c) =? 0)%nat in
  _calculateYAxisRanges left right c.

(** *** Getters and setters *)

Definition useRightAxisGridLines (arguments : list bool) (c : CompositeChart)
  : returned (option bool) * CompositeChart :=
  if negb (ToBoolean_object arguments) then (Value (_rightAxisGridLines c), c)
  else (This, set_rightAxisGridLines (head arguments) c).

Definition childOptions (arguments : list any) (c : CompositeChart)
  : returned any * CompositeChart :=
  match arguments with
  | [] => (Value (_childOptions c), c)
  | childOptions :: _ =>
      let c := set_childOptions childOptions c in
      (This, for_range (length (_children c))
               (fun i c => invoke i (Chart.Options (_childOptions c)) c) c)
  end.

Definition compose (subChartArray : list T) (c : CompositeChart) : CompositeChart :=
  let c := set_children subChartArray c in
  for_range (length (_children c))
    (fun i c =>
       let c := invoke i (Chart.Height (height (super c))) c in
       let c := invoke i (Chart.Width (width (super c))) c in
       let c := invoke i (Chart.Margins (margins (super c))) c in
       let c := if _shareTitle c then invoke i (Chart.Title (title (super c))) c else c in
       invoke i (Chart.Options (_childOptions c)) c)
    c.

Definition children (c : CompositeChart) : list T := _children c.

Definition shareColors (arguments : list bool) (c : CompositeChart)
  : returned bool * CompositeChart :=
  match arguments with
  | [] => (Value (_shareColors c), c)
  | shareColors :: _ => (This, set_shareColors shareColors c)
  end.

Definition shareTitle (arguments : list bool) (c : CompositeChart)
  : returned bool * CompositeChart :=
  match arguments with
  | [] => (Value (_shareTitle c), c)
  | shareTitle :: _ => (This, set_shareTitle shareTitle c)
  end.

Definition alignYAxes (arguments : list bool) (c : CompositeChart)
  : returned bool * CompositeChart :=
  match arguments with
  | [] => (Value (_alignYAxes c), c)
  | alignYAxes :: _ =>
      let c := set_alignYAxes alignYAxes c in
      (This, set_super (rescale (super c)) c)
  end.

(** *** Legend *)

(** [reduce] threads [items]; [items.push.apply(items, xs)] appends [xs]. *)
Definition legendables (c : CompositeChart) : list any * CompositeChart :=
  for_range (length (_children c))
    (fun i '(items, c) =>
       let c := if _shareColors c then invoke i (Chart.Colors (colors (super c))) c else c in
       match _children c !! i with
       | Some child => (items ++ Chart.legendables child, c)
       | None => (items, c)
       end)
    ([], c).

(** *** The composite's own axis extent *)

Definition yAxisMin (c : CompositeChart) : completion value := Throw not_supported.

Definition yAxisMax (c : CompositeChart) : completion value := Throw not_supported.

(** *** The two axis sides

    The left and the right functions above, picked by side. *)

Inductive Side : Type := LeftSide | RightSide.

Definition on_side (s : Side) (child : T) : bool :=
  match s with
  | LeftSide => negb (Chart.useRightYAxis child)
  | RightSide => Chart.useRightYAxis child
  end.

Definition sideChildren (s : Side) (c : CompositeChart) : list T :=
  match s with
  | LeftSide => _leftYAxisChildren c
  | RightSide => _rightYAxisChildren c
  end.

Definition sideMin (s : Side) (c : CompositeChart) : value :=
  match s with
  | LeftSide => _yAxisMin c
  | RightSide => _rightYAxisMin c
  end.

Definition sideMax (s : Side) (c : CompositeChart) : value :=
  match s with
  | LeftSide => _yAxisMax c
  | RightSide => _rightYAxisMax c
  end.

(** *** Vocabulary of the properties *)

(** The settings of a composite: everything but its children and the spy. *)
Definition settings (c : CompositeChart) : CompositeChart :=
  set_calls [] (set_children [] c).

(** The calls [compose] makes on one child, in the order it makes them. *)
Definition pushed_down (c : CompositeChart) : list (Chart.Call any) :=
  [Chart.Height (height (super c)); Chart.Width (width (super c));
   Chart.Margins (margins (super c))]
  ++ (if _shareTitle c then [Chart.Title (title (super c))] else [])
  ++ [Chart.Options (_childOptions c)].

(** A child after the calls of [calls], the first of them first. *)
Definition after_calls (calls : list (Chart.Call any)) (child : T) : T :=
  fold_left (fun child m => Chart.call m child) calls child.

(** What [legendables] has done to a child by the time it asks the child for
    its legend items, and the call that did it. *)
Definition coloured (c : CompositeChart) (child : T) : T :=
  if _shareColors c then Chart.call (Chart.Colors (colors (super c))) child else child.

Definition colour_calls (c : CompositeChart) (i : nat) : list (nat * Chart.Call any) :=
  if _shareColors c then [(i, Chart.Colors (colors (super c)))] else [].

End CompositeChart.

Arguments Inherited any : clear implicits.
Arguments CompositeChart any T : clear implicits.

End composite_chart.

(** ** The alignment in doubles

    The numbers of the code are IEEE 754 binary64 doubles, and [-], [*] and
    [/] round.  What is said of the arithmetic of [_alignYAxisRanges]
    itself is settled on this second embedding of it, over the doubles of
    the kernel, where the three operations round as they do in the code. *)

Module binary64.

Import Floats.
Local Open Scope float_scope.

(** A whole number as a number literal; exact below [2^53]. *)
Definition of_Z (z : Z) : float :=
  match z with
  | Z0 => 0
  | Zpos p => SF2Prim (S754_finite false p 0)
  | Zneg p => SF2Prim (S754_finite true p 0)
  end.

(** [a === b] on numbers: NaN equals nothing, and the two zeros are equal. *)
Definition strict_eq (a b : float) : bool := (a =? b).

(** [Math.min(a, b)] and [Math.max(a, b)]: NaN if either argument is, and
    [-0] counts as less than [+0]. *)
Definition Math_min (a b : float) : float :=
  if is_nan a || is_nan b then nan
  else if a <? b then a
  else if b <? a then b
  else if get_sign a then a else b.

Definition Math_max (a b : float) : float :=
  if is_nan a || is_nan b then nan
  else if a <? b then b
  else if b <? a then a
  else if get_sign a then b else a.

Record Ranges : Type := {
  lyAxisMin : float;
  lyAxisMax : float;
  ryAxisMin : float;
  ryAxisMax : float
}.

Definition _alignYAxisRanges (lyAxisMin lyAxisMax ryAxisMin ryAxisMax : float) : Ranges :=
  let extentRatio := (ryAxisMax - ryAxisMin) / (lyAxisMax - lyAxisMin) in
  {| lyAxisMin := Math_min lyAxisMin (ryAxisMin / extentRatio);
     lyAxisMax := Math_max lyAxisMax (ryAxisMax / extentRatio);
     ryAxisMin := Math_min ryAxisMin (lyAxisMin * extentRatio);
     ryAxisMax := Math_max ryAxisMax (lyAxisMax * extentRatio) |}.

(** *** Vocabulary of the properties *)

(** Where zero lies along an axis: the minimum over the span. *)
Definition left_fraction (r : Ranges) : float :=
  lyAxisMin r / (lyAxisMax r - lyAxisMin r).

Definition right_fraction (r : Ranges) : float :=
  ryAxisMin r / (ryAxisMax r - ryAxisMin r).





End binary64.

(** ** A chart to compose *)

Module plain_chart.

(** Modelled from the spec: a child chart.  The child classes (bar, line and
    the mixins they extend) are not among the sources.  This one follows the
    chart contract of the specification: [replaceFilter] replaces what
    [filter()] answers, the axis and legend reads answer what the chart was
    built with, and every call is remembered in the order it came.  Opaque
    values are strings. *)
Record PlainChart : Type := {
  received : list (Chart.Call string);
  currentFilter : string;
  rightAxis : bool;
  reportedMin : value;
  reportedMax : value;
  legend : list string
}.

Definition call (m : Chart.Call string) (ch : PlainChart) : PlainChart :=
  {| received := received ch ++ [m];
     currentFilter :=
       match m with
       | Chart.ReplaceFilter f => f
       | _ => currentFilter ch
       end;
     rightAxis := rightAxis ch;
     reportedMin := reportedMin ch;
     reportedMax := reportedMax ch;
     legend := legend ch |}.

#[export] Instance contract : Chart.Contract string PlainChart := {|
  Chart.call := call;
  Chart.filter := currentFilter;
  Chart.useRightYAxis := rightAxis;
  Chart.yAxisMin := reportedMin;
  Chart.yAxisMax := reportedMax;
  Chart.legendables := legend
|}.

(** A line on the left axis running over [-2, 8] and bars on the right axis
    running over [-10, 40]. *)
Definition line : PlainChart :=
  {| received := []; currentFilter := "none"; rightAxis := false;
     reportedMin := Num (-2); reportedMax := Num 8; legend := ["line"] |}.

Definition bars : PlainChart :=
  {| received := []; currentFilter := "none"; rightAxis := true;
     reportedMin := Num (-10); reportedMax := Num 40; legend := ["bars"; "more bars"] |}.

Definition inherited : composite_chart.Inherited string :=
  {| composite_chart.height := "200";
     composite_chart.width := "300";
     composite_chart.margins := "margins";
     composite_chart.title := "title";
     composite_chart.colors := "colors";
     composite_chart.filter := "[2, 5)";
     composite_chart.yAxisPadding := Num 0 |}.

(** A composite fresh from its constructor, and the same with the two charts
    composed into it. *)
Definition fresh : composite_chart.CompositeChart string PlainChart :=
  composite_chart.new_CompositeChart "{}" inherited.

Definition composed : composite_chart.CompositeChart string PlainChart :=
  composite_chart.compose [line; bars] fresh.

(** The same again after [alignYAxes(true)]; [rescale] is of no account
    here and is the identity. *)
Definition aligned : composite_chart.CompositeChart string PlainChart :=
  snd (composite_chart.alignYAxes id [true] composed).

End plain_chart.

(** ** The crossfilter simple adapter: [CFSimpleAdapter] *)

Module c_f_simple_adapter.

(** What a field of a record can hold: [undefined] or a number, a string, or
    another object by reference. *)
Inductive property : Type :=
| Number (v : value)
| String (s : string)
| Object (reference : nat).

(** An object is its own fields by name; the heap holds the objects in the
    order they were allocated, and a reference is an index into it. *)
Abbreviation object := (gmap string property).
Abbreviation heap := (list object).

(** [o.name]: [undefined] when the object has no such field. *)
Definition get (name : string) (o : object) : property :=
  default (Number Undefined) (o !! name).

(** [h[e].name = v] *)
Definition put (e : nat) (name : string) (v : property) (h : heap) : heap :=
  alter (fun o => <[name := v]> o) e h.

(** [({ ...val })]: a new object with the fields of [val]. *)
Definition spread (val : nat) (h : heap) : nat * heap :=
  (length h, h ++ [default ∅ (h !! val)]).

(** [array.map(callback)] for a callback that allocates. *)
Fixpoint array_map (callback : nat -> heap -> nat * heap) (array : list nat) (h : heap)
  : list nat * heap :=
  match array with
  | [] => ([], h)
  | e :: rest =>
      let '(e', h) := callback e h in
      let '(rest', h) := array_map callback rest h in
      (e' :: rest', h)
  end.

(** [array.forEach(callback)] for a callback that writes. *)
Definition array_forEach (callback : nat -> heap -> heap) (array : list nat) (h : heap) : heap :=
  fold_left (fun h e => callback e h) array h.

(** The grouped source: [all()] answers the source's own record objects. *)
Record MinimalCFGroup : Type := {
  all : list nat
}.

(** A value accessor reads the record it is given, and what the record
    refers to. *)
Record ICFSimpleAdapterConf : Type := {
  group : MinimalCFGroup;
  valueAccessor : heap -> nat -> property
}.

(** The accessor the constructor configures: [d => d.value]. *)
Definition default_valueAccessor (h : heap) (d : nat) : property :=
  get "value" (default ∅ (h !! d)).

Definition data (_conf : ICFSimpleAdapterConf) (h : heap) : list nat * heap :=
  let entities := all (group _conf) in
  (* the array of copies is built and dropped *)
  let '(_, h) := array_map (fun val h => spread val h) entities h in
  let h := array_forEach (fun e h => put e "_value" (valueAccessor _conf h e) h) entities h in
  (entities, h).

(** An object is [written] when it is the source's object with a [_value]
    field put in, or put in anew. *)
Definition written (o o' : object) : Prop :=
  exists v, o' = <["_value" := v]> o.

(** One record, [{key: 1, value: 2}], held by the source, and an adapter
    as its constructor configures it. *)
Definition one_record : heap :=
  [ {[ "key" := Number (Num 1); "value" := Number (Num 2) ]} ].

Definition one_record_conf : ICFSimpleAdapterConf :=
  {| group := {| all := [0%nat] |}; valueAccessor := default_valueAccessor |}.

End c_f_simple_adapter.

(** ** Finite numbers *)

Definition finite (v : value) : Prop := exists q, v = Num q.

(** ** The composite chart: the grid lines *)

Module composite_axes.

Import composite_chart.

(** [ToBoolean] of the grid line flag: [undefined] counts as [false]. *)
Definition ToBoolean_flag (flag : option bool) : bool :=
  match flag with
  | Some b => b
  | None => false
  end.

Section Axes.

Context {any T : Type} `{!Chart.Contract any T}.

(** The axis whose horizontal grid lines [_prepareYAxis] renders, after it
    has set up the axes, if it renders any. *)
Definition _prepareYAxis_gridLines (c : CompositeChart any T) : option Side :=
  if (0 <? length (_leftYAxisChildren c))%nat && negb (ToBoolean_flag (_rightAxisGridLines c))
  then Some LeftSide
  else if (0 <? length (_rightYAxisChildren c))%nat then Some RightSide
  else None.

End Axes.

End composite_axes.

(** ** A chart on the coordinate grid

    What the composite asks of a child when it renders, beyond the chart
    contract.  The child classes and the coordinate grid mixin are not among
    the sources; a child is held by value and answers a call with its next
    state. *)

Module GridChart.

(** The calls a composite makes on a child when it renders. *)
Inductive Call (any : Type) : Type :=
| Shared (m : Chart.Call any)
| GenerateG (parentG : any)
| GAttrClass (class : string)
| Dimension (d : any)
| Group (g : any)
| ChartGroup (name : any)
| Svg (s : any)
| XUnits (units : any)
| TransitionDuration (duration delay : any)
| ParentBrushOn (brushOn : bool)
| BrushOn (brushOn : bool)
| RenderTitle (renderTitle : any)
| ElasticX (elasticX : any)
| X (scale : any)
| XAxis (axis : any)
| Y (scale : any)
| YAxis (axis : any)
| PlotData
| ActivateRenderlets
| FadeDeselectedArea (brushSelection : any)
| LegendHighlight (d : any)
| LegendReset (d : any).

Arguments Shared {any} m.
Arguments GenerateG {any} parentG.
Arguments GAttrClass {any} class.
Arguments Dimension {any} d.
Arguments Group {any} g.
Arguments ChartGroup {any} name.
Arguments Svg {any} s.
Arguments XUnits {any} units.
Arguments TransitionDuration {any} duration delay.
Arguments ParentBrushOn {any} brushOn.
Arguments BrushOn {any} brushOn.
Arguments RenderTitle {any} renderTitle.
Arguments ElasticX {any} elasticX.
Arguments X {any} scale.
Arguments XAxis {any} axis.
Arguments Y {any} scale.
Arguments YAxis {any} axis.
Arguments PlotData {any}.
Arguments ActivateRenderlets {any}.
Arguments FadeDeselectedArea {any} brushSelection.
Arguments LegendHighlight {any} d.
Arguments LegendReset {any} d.

(** [receive] takes the calls that are not [Shared]; [has_g],
    [has_dimension] and [has_group] tell whether [g()], [dimension()] and
    [group()] answer something truthy; [xAxisMin] and [xAxisMax] are reads. *)
Class Contract (any T : Type) : Type := {
  receive : Call any -> T -> T;
  has_g : T -> bool;
  has_dimension : T -> bool;
  has_group : T -> bool;
  xAxisMin : T -> value;
  xAxisMax : T -> value
}.

End GridChart.

(** ** [src/charts/composite-chart.js]: rendering *)

Module composite_grid.

Import composite_chart.
Import GridChart.

Definition SUB_CHART_CLASS : string := "sub".

(** What the composite inherits from [CoordinateGridMixin]: the state [G] of
    the mixin, the getters the composite reads, and [super._generateG()];
    with them [utils.add] and [utils.subtract] called with a unit. *)
Class CoordinateGridMixin (any G : Type) : Type := {
  g : G -> any;
  svg : G -> any;
  dimension : G -> any;
  group : G -> any;
  chartGroup : G -> any;
  xUnits : G -> any;
  transitionDuration : G -> any;
  transitionDelay : G -> any;
  brushOn : G -> bool;
  renderTitle : G -> any;
  elasticX : G -> any;
  x : G -> any;
  xAxis : G -> any;
  y : G -> any;
  yAxis : G -> any;
  xAxisPadding : G -> value;
  xAxisPaddingUnit : G -> any;
  super_generateG : G -> any * G;
  utils_add : value -> value -> any -> value;
  utils_subtract : value -> value -> any -> value
}.

Section Rendering.

Context {any T G : Type}.
Context `{!Chart.Contract any T} `{!GridChart.Contract any T} `{!CoordinateGridMixin any G}.

(** A composite on the grid: the composite, the state of the mixin, the
    right scale and the right axis, and a spy on the calls made on the
    children here, each with the index of the child. *)
Record Composite : Type := {
  chart : CompositeChart any T;
  mixin : G;
  _rightY : any;
  _rightYAxis : any;
  issued : list (nat * Call any)
}.

(** A child takes a call. *)
Definition deliver (m : Call any) (child : T) : T :=
  match m with
  | Shared m => Chart.call m child
  | _ => receive m child
  end.

Definition set_mixin (m : G) (s : Composite) : Composite :=
  {| chart := chart s; mixin := m; _rightY := _rightY s; _rightYAxis := _rightYAxis s;
     issued := issued s |}.

(** [this._children[i].m(...)] *)
Definition invoke (i : nat) (m : Call any) (s : Composite) : Composite :=
  {| chart := set_children (alter (deliver m) i (_children (chart s))) (chart s);
     mixin := mixin s; _rightY := _rightY s; _rightYAxis := _rightYAxis s;
     issued := issued s ++ [(i, m)] |}.

(** [this._children[i]] asked a question. *)
Definition ask (question : T -> bool) (i : nat) (s : Composite) : bool :=
  match _children (chart s) !! i with
  | Some child => question child
  | None => false
  end.

(** [SUB_CHART_CLASS + ' _' + i] *)
Definition sub_class (i : nat) : string := SUB_CHART_CLASS +:+ " _" +:+ pretty i.

Definition _generateChildG (i : nat) (s : Composite) : Composite :=
  let s := invoke i (GenerateG (g (mixin s))) s in
  invoke i (GAttrClass (sub_class i)) s.

Definition _generateG (s : Composite) : any * Composite :=
  let (g, m) := super_generateG (mixin s) in
  let s := set_mixin m s in
  (g,
   for_range (length (_children (chart s)))
     (fun i s =>
        let s := _generateChildG i s in
        let s := if negb (ask has_dimension i s)
                 then invoke i (Dimension (dimension (mixin s))) s else s in
        let s := if negb (ask has_group i s)
                 then invoke i (Group (group (mixin s))) s else s in
        let s := invoke i (ChartGroup (chartGroup (mixin s))) s in
        let s := invoke i (Svg (svg (mixin s))) s in
        let s := invoke i (XUnits (xUnits (mixin s))) s in
        let s := invoke i (TransitionDuration (transitionDuration (mixin s))
                             (transitionDelay (mixin s))) s in
        let s := invoke i (ParentBrushOn (brushOn (mixin s))) s in
        let s := invoke i (BrushOn false) s in
        let s := invoke i (RenderTitle (renderTitle (mixin s))) s in
        invoke i (ElasticX (elasticX (mixin s))) s)
     s).

Definition plotData (s : Composite) : Composite :=
  for_range (length (_children (chart s)))
    (fun i s =>
       let s := if negb (ask has_g i s) then _generateChildG i s else s in
       let s := if _shareColors (chart s)
                then invoke i (Shared (Chart.Colors (colors (super (chart s))))) s else s in
       let s := invoke i (X (x (mixin s))) s in
       let s := invoke i (XAxis (xAxis (mixin s))) s in
       let s := if ask Chart.useRightYAxis i s
                then let s := invoke i (Y (_rightY s)) s in
                     invoke i (YAxis (_rightYAxis s)) s
                else let s := invoke i (Y (y (mixin s))) s in
                     invoke i (YAxis (yAxis (mixin s))) s in
       let s := invoke i PlotData s in
       invoke i ActivateRenderlets s)
    s.

Definition fadeDeselectedArea (brushSelection : any) (s : Composite) : Composite :=
  if brushOn (mixin s) then
    for_range (length (_children (chart s)))
      (fun i s => invoke i (FadeDeselectedArea brushSelection) s) s
  else s.

Definition legendHighlight (d : any) (s : Composite) : Composite :=
  for_range (length (_children (chart s))) (fun j s => invoke j (LegendHighlight d) s) s.

Definition legendReset (d : any) (s : Composite) : Composite :=
  for_range (length (_children (chart s))) (fun j s => invoke j (LegendReset d) s) s.

Definition _getAllXAxisMinFromChildCharts (s : Composite) : list value :=
  map (fun c => GridChart.xAxisMin c) (_children (chart s)).

Definition xAxisMin (s : Composite) : value :=
  utils_subtract (d3.min (_getAllXAxisMinFromChildCharts s))
    (xAxisPadding (mixin s)) (xAxisPaddingUnit (mixin s)).

Definition _getAllXAxisMaxFromChildCharts (s : Composite) : list value :=
  map (fun c => GridChart.xAxisMax c) (_children (chart s)).

Definition xAxisMax (s : Composite) : value :=
  utils_add (d3.max (_getAllXAxisMaxFromChildCharts s))
    (xAxisPadding (mixin s)) (xAxisPaddingUnit (mixin s)).

(** *** Vocabulary of the properties *)

(** A child after the calls of [calls], the first of them first. *)
Definition after (calls : list (Call any)) (child : T) : T :=
  fold_left (fun child m => deliver m child) calls child.

(** The child at [i] takes the calls of [calls], the first of them first. *)
Definition invoke_all (i : nat) (calls : list (Call any)) (s : Composite) : Composite :=
  fold_left (fun s m => invoke i m s) calls s.

(** Every child, in the order of the list, has taken the one call [m]. *)
Definition broadcast (m : Call any) (s : Composite) : Composite :=
  {| chart := set_children (map (deliver m) (_children (chart s))) (chart s);
     mixin := mixin s; _rightY := _rightY s; _rightYAxis := _rightYAxis s;
     issued := issued s ++ map (fun i => (i, m)) (seq 0 (length (_children (chart s)))) |}.

(** What the rendering loops read and leave alone. *)
Definition frame (s : Composite) : Composite :=
  {| chart := set_children [] (chart s); mixin := mixin s; _rightY := _rightY s;
     _rightYAxis := _rightYAxis s; issued := [] |}.

(** Every child, in the order of the list, has taken the calls [calls]
    makes out for it and its index. *)
Definition served (calls : nat -> T -> list (Call any)) (s : Composite) : Composite :=
  {| chart := set_children (imap (fun i child => after (calls i child) child) (_children (chart s)))
                (chart s);
     mixin := mixin s; _rightY := _rightY s; _rightYAxis := _rightYAxis s;
     issued := issued s ++ concat (imap (fun i child => map (pair i) (calls i child))
                                     (_children (chart s))) |}.

End Rendering.

Arguments Composite any T G : clear implicits.

End composite_grid.

(** ** [src/errors.js] *)

Module errors.

(** What an exception shows: its [message] field and what [toString()]
    answers. *)
Record Exception : Type := {
  message : string;
  toString : string
}.

(** [msg || 'Unexpected internal error']: a message that is missing or empty
    gives way. *)
Definition new_Exception (msg : option string) : Exception :=
  let _msg :=
    match msg with
    | Some m => if negb (String.eqb m "") then m else "Unexpected internal error"
    | None => "Unexpected internal error"
    end in
  {| message := _msg; toString := _msg |}.

(** [Exception.apply(this, arguments)]: the first argument is the message. *)
Definition new_InvalidStateException (arguments : list string) : Exception :=
  new_Exception (head arguments).

End errors.

(** ** [String.prototype.replace] with a string to search for *)

Module js_string.

(** [s] without the prefix [p], when it has it. *)
Fixpoint strip_prefix (p s : string) : option string :=
  match p, s with
  | EmptyString, _ => Some s
  | String a p', String b s' => if Ascii.eqb a b then strip_prefix p' s' else None
  | String _ _, EmptyString => None
  end.

(** What is before and what is after the first occurrence of [pattern]. *)
Fixpoint split_at_first (pattern s : string) : option (string * string) :=
  match strip_prefix pattern s with
  | Some after => Some (EmptyString, after)
  | None =>
      match s with
      | EmptyString => None
      | String c s' =>
          match split_at_first pattern s' with
          | Some (before, after) => Some (String c before, after)
          | None => None
          end
      end
  end.

(** The replacement text: [$$] stands for a dollar, [$&] for what was
    matched, [$`] for what is before it and [$'] for what is after; a search
    string captures nothing, so any other dollar stands for itself. *)
Fixpoint GetSubstitution (matched before after replacement : string) : string :=
  match replacement with
  | EmptyString => EmptyString
  | String c rest =>
      if Ascii.eqb c "$" then
        match rest with
        | String d rest' =>
            if Ascii.eqb d "$" then String "$" (GetSubstitution matched before after rest')
            else if Ascii.eqb d "&" then matched +:+ GetSubstitution matched before after rest'
            else if Ascii.eqb d "`" then before +:+ GetSubstitution matched before after rest'
            else if Ascii.eqb d "'" then after +:+ GetSubstitution matched before after rest'
            else String c (GetSubstitution matched before after rest)
        | EmptyString => String c (GetSubstitution matched before after rest)
        end
      else String c (GetSubstitution matched before after rest)
  end.

(** [s.replace(pattern, replacement)]: the first occurrence only. *)
Definition replace (pattern replacement s : string) : string :=
  match split_at_first pattern s with
  | Some (before, after) => before +:+ GetSubstitution pattern before after replacement +:+ after
  | None => s
  end.

(** Whether the character [c] occurs in [s]. *)
Fixpoint mentions (c : ascii) (s : string) : bool :=
  match s with
  | EmptyString => false
  | String c' s' => Ascii.eqb c c' || mentions c s'
  end.

(** [ToBoolean] of a string, and of a field that may be missing. *)
Definition ToBoolean (s : string) : bool := negb (String.eqb s "").

Definition ToBoolean_field (field : option string) : bool :=
  match field with
  | Some s => ToBoolean s
  | None => false
  end.

End js_string.

Module data_count.

Import js_string.

Record CF : Type := { size : Js.value }.

Record MinimalGroupAll : Type := { value : Js.value }.

Record HTMLOptions : Type := { all : string; some : string }.

(** The argument of [html]: an object that may lack either field. *)
Record HTMLOptionsArgument : Type := {
  options_all : option string;
  options_some : option string
}.

Record DataCount : Type := {
  _formatNumber : Js.value -> string;
  _crossfilter : option CF;
  _groupAll : option MinimalGroupAll;
  _html : HTMLOptions
}.

(** [format(',d')] of d3-format is handed in. *)
Definition new_DataCount (format_d : Js.value -> string) : DataCount :=
  {| _formatNumber := format_d;
     _crossfilter := None;
     _groupAll := None;
     _html := {| some := ""; all := "" |} |}.

Definition set_html (h : HTMLOptions) (c : DataCount) : DataCount :=
  {| _formatNumber := _formatNumber c; _crossfilter := _crossfilter c;
     _groupAll := _groupAll c; _html := h |}.

Definition html (arguments : list HTMLOptionsArgument) (c : DataCount)
  : returned HTMLOptions * DataCount :=
  match arguments with
  | [] => (Value (_html c), c)
  | options :: _ =>
      let c :=
        match options_all options with
        | Some a => if ToBoolean a then set_html {| all := a; some := some (_html c) |} c else c
        | None => c
        end in
      let c :=
        match options_some options with
        | Some s => if ToBoolean s then set_html {| all := all (_html c); some := s |} c else c
        | None => c
        end in
      (This, c)
  end.

Definition formatNumber (arguments : list (Js.value -> string)) (c : DataCount)
  : returned (Js.value -> string) * DataCount :=
  match arguments with
  | [] => (Value (_formatNumber c), c)
  | formatter :: _ =>
      (This, {| _formatNumber := formatter; _crossfilter := _crossfilter c;
                _groupAll := _groupAll c; _html := _html c |})
  end.

Definition crossfilter (arguments : list (option CF)) (c : DataCount)
  : returned (option CF) * DataCount :=
  match arguments with
  | [] => (Value (_crossfilter c), c)
  | cf :: _ =>
      (This, {| _formatNumber := _formatNumber c; _crossfilter := cf;
                _groupAll := _groupAll c; _html := _html c |})
  end.

Definition groupAll (arguments : list (option MinimalGroupAll)) (c : DataCount)
  : returned (option MinimalGroupAll) * DataCount :=
  match arguments with
  | [] => (Value (_groupAll c), c)
  | groupAll :: _ =>
      (This, {| _formatNumber := _formatNumber c; _crossfilter := _crossfilter c;
                _groupAll := groupAll; _html := _html c |})
  end.

(** What [_doRender] puts on the page: the HTML of the root element, or the
    text of the elements of class [total-count] and [filter-count]. *)
Inductive Rendered : Type :=
| RootHtml (markup : string)
| CountTexts (total_count filter_count : string).

(** [None]: [crossfilter()] or [groupAll()] is [null] and the read of its
    method throws. *)
Definition _doRender (c : DataCount) : option Rendered :=
  match _crossfilter c, _groupAll c with
  | Some cf, Some ga =>
      let tot := size cf in
      let val := value ga in
      let all_ := _formatNumber c tot in
      let selected := _formatNumber c val in
      if strict_eq tot val && negb (String.eqb (all (_html c)) "") then
        Some (RootHtml (replace "%filter-count" selected
                          (replace "%total-count" all_ (all (_html c)))))
      else if negb (String.eqb (some (_html c)) "") then
        Some (RootHtml (replace "%filter-count" selected
                          (replace "%total-count" all_ (some (_html c)))))
      else Some (CountTexts all_ selected)
  | _, _ => None
  end.

Definition _doRedraw (c : DataCount) : option Rendered := _doRender c.

(** The calls that change a data count, and a run of them. *)
Inductive Method : Type :=
| Html (arguments : list HTMLOptionsArgument)
| FormatNumber (arguments : list (Js.value -> string))
| Crossfilter (arguments : list (option CF))
| GroupAll (arguments : list (option MinimalGroupAll)).

Definition invoke (m : Method) (c : DataCount) : DataCount :=
  match m with
  | Html arguments => snd (html arguments c)
  | FormatNumber arguments => snd (formatNumber arguments c)
  | Crossfilter arguments => snd (crossfilter arguments c)
  | GroupAll arguments => snd (groupAll arguments c)
  end.

Definition run (methods : list Method) (c : DataCount) : DataCount :=
  fold_left (fun c m => invoke m c) methods c.

End data_count.

(** ** The heat map: the values of the rows and columns *)

Module heat_map.

(** [a != b] on numbers and [undefined]. *)
Definition loose_neq (a b : value) : bool := negb (strict_eq a b).

(** [a[i]], [undefined] out of range. *)
Definition element (a : list value) (i : nat) : value := nth i a Undefined.

(** [function uniq(d, i, a) { return !i || a[i-1] != d; }] *)
Definition uniq (d : value) (i : nat) (a : list value) : bool :=
  (i =? 0)%nat || loose_neq (element a (i - 1)) d.

(** [a.filter(callback)]: the callback is given the element, its index and
    the array. *)
Fixpoint filter_from (callback : value -> nat -> list value -> bool) (a : list value)
    (i : nat) (rest : list value) : list value :=
  match rest with
  | [] => []
  | d :: rest =>
      if callback d i a then d :: filter_from callback a (S i) rest
      else filter_from callback a (S i) rest
  end.

Definition array_filter (callback : value -> nat -> list value -> bool) (a : list value)
  : list value :=
  filter_from callback a 0 a.

(** *** Vocabulary of the properties *)

(** The elements of [l] that differ from the one before them, [prev] being
    the one before the first. *)
Fixpoint changes (prev : value) (l : list value) : list value :=
  match l with
  | [] => []
  | d :: l => if loose_neq prev d then d :: changes d l else changes d l
  end.

End heat_map.

(** ** Charts and counters for the examples *)

Module sides_example.

Import composite_chart plain_chart.

(** An area on the right axis running over [-20 .. 30]; and the line, the
    bars and the area composed into a composite with a y axis padding of
    5. *)
Definition area : PlainChart :=
  {| received := []; currentFilter := "none"; rightAxis := true;
     reportedMin := Num (-20); reportedMax := Num 30; legend := ["area"] |}.

Definition padded : Inherited string :=
  {| height := "200"; width := "300"; margins := "margins"; title := "title";
     colors := "colors"; filter := "[2, 5)"; yAxisPadding := Num 5 |}.

Definition three : CompositeChart string PlainChart :=
  compose [line; bars; area] (new_CompositeChart "{}" padded).

End sides_example.

Module grid_example.

Import composite_chart plain_chart GridChart composite_grid.

(** A child for the examples, not a chart of the library: a plain chart that
    also remembers the calls of the grid in the order they came, has a [g]
    once it has generated one, and a dimension and a group once it has been
    given them. *)
Record GridPlain : Type := {
  plain : PlainChart;
  heard : list (Call string);
  own_g : option string;
  own_dimension : option string;
  own_group : option string;
  xMin : value;
  xMax : value
}.

Definition shared_call (m : Chart.Call string) (ch : GridPlain) : GridPlain :=
  {| plain := plain_chart.call m (plain ch); heard := heard ch;
     own_g := own_g ch; own_dimension := own_dimension ch; own_group := own_group ch;
     xMin := xMin ch; xMax := xMax ch |}.

Definition grid_call (m : Call string) (ch : GridPlain) : GridPlain :=
  {| plain := plain ch; heard := heard ch ++ [m];
     own_g := match m with GenerateG parentG => Some parentG | _ => own_g ch end;
     own_dimension := match m with Dimension d => Some d | _ => own_dimension ch end;
     own_group := match m with Group g => Some g | _ => own_group ch end;
     xMin := xMin ch; xMax := xMax ch |}.

Definition answers (field : option string) : bool :=
  match field with
  | Some _ => true
  | None => false
  end.

#[export] Instance chart_contract : Chart.Contract string GridPlain := {|
  Chart.call := shared_call;
  Chart.filter ch := currentFilter (plain ch);
  Chart.useRightYAxis ch := rightAxis (plain ch);
  Chart.yAxisMin ch := reportedMin (plain ch);
  Chart.yAxisMax ch := reportedMax (plain ch);
  Chart.legendables ch := legend (plain ch)
|}.

#[export] Instance grid_contract : GridChart.Contract string GridPlain := {|
  GridChart.receive := grid_call;
  GridChart.has_g ch := answers (own_g ch);
  GridChart.has_dimension ch := answers (own_dimension ch);
  GridChart.has_group ch := answers (own_group ch);
  GridChart.xAxisMin := xMin;
  GridChart.xAxisMax := xMax
|}.

(** A grid for the examples: its brush and its x padding; every other getter
    answers its own name, and [utils.add] and [utils.subtract] add and
    subtract numbers whatever the unit. *)
Record PlainGrid : Type := {
  brush : bool;
  padding : value
}.

#[export] Instance mixin_contract : CoordinateGridMixin string PlainGrid := {|
  composite_grid.g _ := "g";
  composite_grid.svg _ := "svg";
  composite_grid.dimension _ := "dimension";
  composite_grid.group _ := "group";
  composite_grid.chartGroup _ := "chartGroup";
  composite_grid.xUnits _ := "xUnits";
  composite_grid.transitionDuration _ := "500";
  composite_grid.transitionDelay _ := "0";
  composite_grid.brushOn := brush;
  composite_grid.renderTitle _ := "renderTitle";
  composite_grid.elasticX _ := "elasticX";
  composite_grid.x _ := "x";
  composite_grid.xAxis _ := "xAxis";
  composite_grid.y _ := "y";
  composite_grid.yAxis _ := "yAxis";
  composite_grid.xAxisPadding := padding;
  composite_grid.xAxisPaddingUnit _ := "unit";
  composite_grid.super_generateG s := ("g", s);
  composite_grid.utils_add l r _ := Js.add l r;
  composite_grid.utils_subtract l r _ := Js.sub l r
|}.

(** The line, with a dimension of its own and running over [0 .. 10] along
    x, and the bars, with none and running over [5 .. 20]. *)
Definition line_on_grid : GridPlain :=
  {| plain := line; heard := []; own_g := None; own_dimension := Some "by day";
     own_group := None; xMin := Num 0; xMax := Num 10 |}.

Definition bars_on_grid : GridPlain :=
  {| plain := bars; heard := []; own_g := None; own_dimension := None;
     own_group := None; xMin := Num 5; xMax := Num 20 |}.

(** The two composed into a fresh composite on a grid with the brush on and
    an x padding of 1. *)
Definition on_grid : Composite string GridPlain PlainGrid :=
  {| chart := compose [line_on_grid; bars_on_grid] (new_CompositeChart "{}" inherited);
     mixin := {| brush := true; padding := Num 1 |};
     _rightY := "rightY";
     _rightYAxis := "rightYAxis";
     issued := [] |}.

End grid_example.

Module axes_example.

Import composite_chart plain_chart.

(** The line and the bars with grid lines asked from the right axis. *)
Definition right_lined : CompositeChart string PlainChart :=
  snd (useRightAxisGridLines [true] composed).

(** The line and the bars sharing colours. *)
Definition sharing : CompositeChart string PlainChart :=
  snd (shareColors [true] composed).

End axes_example.

Module adapter_example.

Import c_f_simple_adapter.

(** Two records on the heap, of which the source holds the first. *)
Definition two_records : heap :=
  [ {[ "key" := Number (Num 1); "value" := Number (Num 2) ]};
    {[ "key" := Number (Num 7); "value" := Number (Num 8) ]} ].

End adapter_example.

Module data_count_example.

Import js_string data_count.

(** A formatter for the examples: whole numbers in decimal digits. *)
Definition digits (v : Js.value) : string :=
  match v with
  | Num q => pretty (Qnum q / Z.pos (Qden q))%Z
  | _ => "NaN"
  end.

(** A counter over 1000 records of which 42 are selected, with the
    templates of the documentation. *)
Definition counter : DataCount :=
  {| _formatNumber := digits;
     _crossfilter := Some {| size := Num 1000 |};
     _groupAll := Some {| value := Num 42 |};
     _html := {| some := "%filter-count out of %total-count records selected";
                 all := "All records selected. Click on charts to apply filters" |} |}.

End data_count_example.

(** * Properties *)

(** ** Finite arithmetic *)

Section FiniteArithmetic.

Import composite_chart.
Local Open Scope Q_scope.

(** The operators on finite numbers are the operators of the rationals. *)
Lemma is_zero_Num q : is_zero (Num q) = false <-> ~ q == 0.
Proof.
  unfold is_zero. rewrite Qeq_alt. destruct (q ?= 0); split; intros; try congruence; try discriminate.
Qed.

Lemma sub_Num x y : sub (Num x) (Num y) = Num (x - y).
Proof. reflexivity. Qed.

Lemma div_Num x y : ~ y == 0 -> div (Num x) (Num y) = Num (x / y).
Proof.
  intros Hy. unfold div. cbn [ToNumber].
  apply is_zero_Num in Hy. rewrite Hy. reflexivity.
Qed.

End FiniteArithmetic.

(** ** The order of numbers, and [d3.min] and [d3.max] *)

Section Extremes.

Local Open Scope Q_scope.

(** Numbers other than NaN are totally ordered by [>=]. *)
Lemma comparable_cases v : comparable v -> v = NegInfinity \/ v = Infinity \/ exists q, v = Num q.
Proof.
  destruct v; unfold comparable, ge, cmp; simpl; intros; try discriminate; eauto.
Qed.

Lemma cmp_antisym a b : comparable a -> comparable b ->
  exists o, cmp a b = Some o /\ cmp b a = Some (CompOpp o).
Proof.
  intros Ha Hb.
  destruct (comparable_cases a Ha) as [->|[->|[x ->]]], (comparable_cases b Hb) as [->|[->|[y ->]]];
    unfold cmp; simpl; eauto.
  exists (x ?= y). split; [reflexivity|]. f_equal. symmetry. apply Qcompare_antisym.
Qed.

Lemma ge_total a b : comparable a -> comparable b -> gt a b = false -> ge b a = true.
Proof.
  intros Ha Hb. destruct (cmp_antisym a b Ha Hb) as (o & H1 & H2).
  unfold gt, ge. rewrite H1, H2. destruct o; simpl; congruence.
Qed.

Lemma gt_ge a b : gt a b = true -> ge a b = true.
Proof. unfold gt, ge. destruct (cmp a b) as [[]|]; congruence. Qed.

Lemma ge_trans a b c : ge a b = true -> ge b c = true -> ge a c = true.
Proof.
  unfold ge, cmp.
  destruct a as [| | |x|], b as [| | |y|], c as [| | |z|]; simpl; try congruence.
  destruct (x ?= y) eqn:E1; try congruence; destruct (y ?= z) eqn:E2; try congruence; intros _ _.
  - apply Qeq_alt in E1, E2. assert (E : x == z) by (rewrite E1; exact E2).
    apply Qeq_alt in E. rewrite E. reflexivity.
  - apply Qeq_alt in E1. apply Qgt_alt in E2. assert (E : x > z) by (rewrite E1; exact E2).
    apply Qgt_alt in E. rewrite E. reflexivity.
  - apply Qgt_alt in E1. apply Qeq_alt in E2. assert (E : x > z) by (rewrite <- E2; exact E1).
    apply Qgt_alt in E. rewrite E. reflexivity.
  - apply Qgt_alt in E1, E2. assert (E : x > z) by lra.
    apply Qgt_alt in E. rewrite E. reflexivity.
Qed.

Lemma lt_ge a b : lt a b = true -> ge b a = true.
Proof.
  unfold lt, ge, cmp.
  destruct a as [| | |x|], b as [| | |y|]; simpl; try congruence.
  rewrite <- (Qcompare_antisym x y). destruct (x ?= y); simpl; congruence.
Qed.

Lemma ge_total' a b : comparable a -> comparable b -> lt a b = false -> ge a b = true.
Proof.
  intros Ha Hb. destruct (cmp_antisym a b Ha Hb) as (o & H1 & H2).
  unfold lt, ge. rewrite H1. destruct o; simpl; congruence.
Qed.

Lemma comparable_not_null v : comparable v -> not_null v = true /\ d3.is_undefined v = false.
Proof. destruct v; unfold comparable; simpl; try discriminate; auto. Qed.

(** Among numbers the turns of the two loops are plain comparisons, and the
    first number met replaces the initial [undefined]. *)
Lemma min_step_comparable m v :
  comparable m -> comparable v -> d3.min_step m v = if gt m v then v else m.
Proof.
  intros Hm Hv. unfold d3.min_step.
  destruct (comparable_not_null _ Hv) as [-> _], (comparable_not_null _ Hm) as [_ ->].
  simpl. rewrite orb_false_r. reflexivity.
Qed.

Lemma max_step_comparable m v :
  comparable m -> comparable v -> d3.max_step m v = if lt m v then v else m.
Proof.
  intros Hm Hv. unfold d3.max_step.
  destruct (comparable_not_null _ Hv) as [-> _], (comparable_not_null _ Hm) as [_ ->].
  simpl. rewrite orb_false_r. reflexivity.
Qed.

Lemma min_step_first v : comparable v -> d3.min_step Undefined v = v.
Proof.
  intros Hv. unfold d3.min_step. destruct (comparable_not_null _ Hv) as [-> _].
  unfold comparable in Hv. rewrite Hv. reflexivity.
Qed.

Lemma max_step_first v : comparable v -> d3.max_step Undefined v = v.
Proof.
  intros Hv. unfold d3.max_step. destruct (comparable_not_null _ Hv) as [-> _].
  unfold comparable in Hv. rewrite Hv. reflexivity.
Qed.

(** The loops from a number [m] on: the result is [m] or an entry, and it
    bounds [m] and every entry. *)
Lemma min_fold l : forall m,
  comparable m -> Forall comparable l ->
  let r := fold_left d3.min_step l m in
  (r = m \/ r ∈ l) /\ ge m r = true /\ Forall (fun x => ge x r = true) l.
Proof.
  induction l as [|v l IH]; intros m Hm Hl; simpl.
  - split; [by left|]. split; [exact Hm | constructor].
  - inversion Hl as [|? ? Hv Hl']; subst.
    rewrite (min_step_comparable m v Hm Hv).
    destruct (gt m v) eqn:Hgt.
    + destruct (IH v Hv Hl') as (Hin & Hge & Hall).
      split; [|split].
      * right. destruct Hin as [->|Hin]; [left | by right].
      * eapply ge_trans; [apply gt_ge, Hgt | exact Hge].
      * constructor; assumption.
    + destruct (IH m Hm Hl') as (Hin & Hge & Hall).
      split; [|split].
      * destruct Hin as [Heq|Hin]; [by left | right; by right].
      * exact Hge.
      * constructor; [|assumption].
        eapply ge_trans; [apply (ge_total m v Hm Hv Hgt) | exact Hge].
Qed.

Lemma max_fold l : forall m,
  comparable m -> Forall comparable l ->
  let r := fold_left d3.max_step l m in
  (r = m \/ r ∈ l) /\ ge r m = true /\ Forall (fun x => ge r x = true) l.
Proof.
  induction l as [|v l IH]; intros m Hm Hl; simpl.
  - split; [by left|]. split; [exact Hm | constructor].
  - inversion Hl as [|? ? Hv Hl']; subst.
    rewrite (max_step_comparable m v Hm Hv).
    destruct (lt m v) eqn:Hlt.
    + destruct (IH v Hv Hl') as (Hin & Hge & Hall).
      split; [|split].
      * right. destruct Hin as [->|Hin]; [left | by right].
      * eapply ge_trans; [exact Hge | apply lt_ge, Hlt].
      * constructor; assumption.
    + destruct (IH m Hm Hl') as (Hin & Hge & Hall).
      split; [|split].
      * destruct Hin as [Heq|Hin]; [by left | right; by right].
      * exact Hge.
      * constructor; [|assumption].
        eapply ge_trans; [exact Hge | apply (ge_total' m v Hm Hv Hlt)].
Qed.

(** Over numbers, [d3.min] and [d3.max] answer an entry that bounds all
    entries. *)
Lemma d3_min_spec l :
  l <> [] -> Forall comparable l ->
  d3.min l ∈ l /\ Forall (fun x => ge x (d3.min l) = true) l.
Proof.
  destruct l as [|v l]; [congruence|]. intros _ Hl.
  inversion Hl as [|? ? Hv Hl']; subst.
  unfold d3.min. simpl. rewrite (min_step_first v Hv).
  destruct (min_fold l v Hv Hl') as (Hin & Hge & Hall).
  split.
  - destruct Hin as [->|Hin]; [left | by right].
  - constructor; assumption.
Qed.

Lemma d3_max_spec l :
  l <> [] -> Forall comparable l ->
  d3.max l ∈ l /\ Forall (fun x => ge (d3.max l) x = true) l.
Proof.
  destruct l as [|v l]; [congruence|]. intros _ Hl.
  inversion Hl as [|? ? Hv Hl']; subst.
  unfold d3.max. simpl. rewrite (max_step_first v Hv).
  destruct (max_fold l v Hv Hl') as (Hin & Hge & Hall).
  split.
  - destruct Hin as [->|Hin]; [left | by right].
  - constructor; assumption.
Qed.

End Extremes.

(** ** The composite chart *)

Section CompositeFacts.

Import composite_chart.
Context {any T : Type} `{!Chart.Contract any T}.

(** A call on a child leaves the number of children, the bound of the
    loops, as it was. *)
Lemma invoke_length (i : nat) (m : Chart.Call any) (c : CompositeChart any T) :
  length (_children (invoke i m c)) = length (_children c).
Proof. apply length_alter. Qed.

Lemma for_range_S {S : Type} (body : nat -> S -> S) n s :
  for_range (Datatypes.S n) body s = body n (for_range n body s).
Proof. unfold for_range. rewrite seq_S, fold_left_app. reflexivity. Qed.

(** Walking a list and altering each place on the way: what has been reached
    is altered, the rest is as it was. *)
Lemma alter_reached (g : T -> T) (l : list T) : forall i,
  i < length l ->
  alter g i (map g (take i l) ++ drop i l) = map g (take (S i) l) ++ drop (S i) l.
Proof.
  induction l as [|x l IH]; intros i Hi; simpl in Hi; [lia|].
  destruct i as [|i]; [reflexivity|].
  simpl. f_equal. apply IH. lia.
Qed.

Lemma lookup_reached (g : T -> T) (l : list T) i :
  (map g (take (S i) l) ++ drop (S i) l) !! i = g <$> (l !! i).
Proof.
  revert i. induction l as [|x l IH]; intros i; [by destruct i|].
  destruct i as [|i]; [reflexivity|]. simpl. apply IH.
Qed.

Lemma settings_agree (c c' : CompositeChart any T) :
  settings c' = settings c ->
  super c' = super c /\ _childOptions c' = _childOptions c /\
  _shareColors c' = _shareColors c /\ _shareTitle c' = _shareTitle c.
Proof.
  intros Heq.
  pose proof (f_equal super Heq). pose proof (f_equal _childOptions Heq).
  pose proof (f_equal _shareColors Heq). pose proof (f_equal _shareTitle Heq).
  auto.
Qed.

(** A loop whose every turn alters the child it visits by [g] and issues
    [issued i] has, after [n] turns, altered the first [n] children once each
    and issued the calls in the order of the list. *)
Lemma for_range_children (g : T -> T) (issued : nat -> list (nat * Chart.Call any))
    (body : nat -> CompositeChart any T -> CompositeChart any T) (c : CompositeChart any T) :
  (forall i c', settings c' = settings c ->
     body i c' = set_calls (calls c' ++ issued i) (set_children (alter g i (_children c')) c')) ->
  forall n, n <= length (_children c) ->
  for_range n body c =
  set_calls (calls c ++ concat (map issued (seq 0 n)))
    (set_children (map g (take n (_children c)) ++ drop n (_children c)) c).
Proof.
  intros Hbody. induction n as [|n IH]; intros Hn.
  - simpl. rewrite app_nil_r, drop_0. by destruct c.
  - rewrite for_range_S, IH by lia. rewrite Hbody by reflexivity.
    cbn [calls _children set_calls set_children].
    rewrite alter_reached by lia.
    rewrite seq_S, map_app, concat_app. cbn [map concat Nat.add].
    rewrite app_nil_r, app_assoc. reflexivity.
Qed.

Lemma for_range_all_children g issued body (c : CompositeChart any T) :
  (forall i c', settings c' = settings c ->
     body i c' = set_calls (calls c' ++ issued i) (set_children (alter g i (_children c')) c')) ->
  for_range (length (_children c)) body c =
  set_calls (calls c ++ concat (map issued (seq 0 (length (_children c)))))
    (set_children (map g (_children c)) c).
Proof.
  intros Hbody. rewrite (for_range_children g issued body c Hbody) by lia.
  rewrite firstn_all, drop_all, app_nil_r. reflexivity.
Qed.

Lemma concat_singletons {A B : Type} (f : A -> B) (l : list A) :
  concat (map (fun x => [f x]) l) = map f l.
Proof. induction l as [|x l IH]; simpl; [reflexivity | by rewrite IH]. Qed.

Lemma concat_nils {A B : Type} (l : list A) :
  concat (map (fun _ => @nil B) l) = [].
Proof. induction l as [|x l IH]; [reflexivity | exact IH]. Qed.

(** *** The [filtered] handler *)

Lemma on_filtered_unfold (c : CompositeChart any T) :
  let propagated := Chart.ReplaceFilter (filter (super c)) in
  on_filtered c =
  set_calls (calls c ++ map (fun i => (i, propagated)) (seq 0 (length (_children c))))
    (set_children (map (Chart.call propagated) (_children c)) c).
Proof.
  intros propagated. unfold on_filtered.
  rewrite (for_range_all_children (Chart.call propagated) (fun i => [(i, propagated)])).
  - rewrite concat_singletons. reflexivity.
  - intros i c' Hc'. destruct (settings_agree _ _ Hc') as (-> & _). reflexivity.
Qed.

(** C5.  When the composite's filters change, the handler calls
    [replaceFilter] with the composite's own [filter()] on every child, once
    each and in the order of the child list, and makes no other call.  For
    children on which [replaceFilter(f)] makes [filter()] answer [f], every
    child then answers the composite's filter. *)
Theorem filter_propagation (c : CompositeChart any T) :
  (forall f child, Chart.filter (Chart.call (Chart.ReplaceFilter f) child) = f) ->
  let c' := on_filtered c in
  let propagated := Chart.ReplaceFilter (filter (super c)) in
  _children c' = map (Chart.call propagated) (_children c) /\
  calls c' = calls c ++ map (fun i => (i, propagated)) (seq 0 (length (_children c))) /\
  filter (super c') = filter (super c) /\
  Forall (fun child => Chart.filter child = filter (super c')) (_children c').
Proof.
  intros Hreplace c' propagated. unfold c'. rewrite on_filtered_unfold.
  cbn [_children calls super set_calls set_children].
  repeat split.
  apply Forall_map, Forall_forall. intros child _. apply Hreplace.
Qed.

(** *** [compose] *)

Lemma compose_unfold (subChartArray : list T) (c : CompositeChart any T) :
  compose subChartArray c =
  set_calls
    (calls c ++ concat (map (fun i => map (pair i) (pushed_down c)) (seq 0 (length subChartArray))))
    (set_children (map (after_calls (pushed_down c)) subChartArray) c).
Proof.
  unfold compose.
  rewrite (for_range_all_children (after_calls (pushed_down c))
             (fun i => map (pair i) (pushed_down c))).
  - reflexivity.
  - intros i c' Hc'. destruct (settings_agree _ _ Hc') as (Hs & Ho & _ & Ht).
    cbn [super set_children set_calls _shareTitle _childOptions] in Hs, Ho, Ht.
    unfold after_calls, pushed_down. rewrite <- Hs, <- Ht, <- Ho.
    destruct c' as [s l o sc st al gl cs].
    cbv beta iota zeta delta
      [invoke set_calls set_children super _children _childOptions _shareColors
       _shareTitle _alignYAxes _rightAxisGridLines calls].
    destruct st; cbn [fold_left app]; rewrite <- ?app_assoc; cbn [app];
      rewrite !list_alter_alter_eq; reflexivity.
Qed.

(** C7.  [compose] makes the given array the child list, whatever the list
    was before.  Each child of it has received, in this order, [height],
    [width] and [margins] with the composite's values, [title] with the
    composite's title function exactly when title sharing is on at the call,
    and [options] with the composite's child options; the children are
    served one after the other in the order of the array, and the
    composite's settings stay as they were. *)
Theorem compose_pushes_down (subChartArray : list T) (c : CompositeChart any T) :
  let c' := compose subChartArray c in
  let title_call := if _shareTitle c then [Chart.Title (title (super c))] else [] in
  let pushed :=
    [Chart.Height (height (super c)); Chart.Width (width (super c));
     Chart.Margins (margins (super c))]
    ++ title_call ++ [Chart.Options (_childOptions c)] in
  children c' = map (after_calls pushed) subChartArray /\
  calls c' = calls c ++ concat (map (fun i => map (pair i) pushed) (seq 0 (length subChartArray))) /\
  settings c' = settings c.
Proof.
  cbv zeta. rewrite compose_unfold. repeat split.
Qed.

(** C9.  A composite fresh from its constructor shares the title and shares
    neither colours nor a zero line: [shareTitle()] answers true,
    [shareColors()] and [alignYAxes()] answer false, none of the three
    changes the chart, and charts composed into it right away all receive
    the composite's title function. *)
Theorem fresh_composite_defaults (empty_object : any) (rescale : Inherited any -> Inherited any)
    (s : Inherited any) (subChartArray : list T) :
  let c := new_CompositeChart empty_object s in
  shareTitle [] c = (Value true, c) /\
  shareColors [] c = (Value false, c) /\
  alignYAxes rescale [] c = (Value false, c) /\
  children (compose subChartArray c) =
    map (fun child =>
           Chart.call (Chart.Options empty_object)
             (Chart.call (Chart.Title (title s))
                (Chart.call (Chart.Margins (margins s))
                   (Chart.call (Chart.Width (width s))
                      (Chart.call (Chart.Height (height s)) child)))))
      subChartArray /\
  Forall (fun i => (i, Chart.Title (title s)) ∈ calls (compose subChartArray c))
    (seq 0 (length subChartArray)).
Proof.
  cbv zeta. repeat split.
  - rewrite compose_unfold. reflexivity.
  - rewrite compose_unfold. cbn [calls set_calls new_CompositeChart app].
    apply Forall_forall. intros i Hi.
    apply list_elem_of_In, in_concat.
    exists (map (pair i) (pushed_down (new_CompositeChart (T:=T) empty_object s))). split.
    + apply in_map_iff. exists i. split; [reflexivity|]. by apply list_elem_of_In.
    + cbn. auto.
Qed.

(** *** [legendables] *)

Lemma colour_step (c c0 : CompositeChart any T) (i : nat) :
  settings c0 = settings c ->
  (if _shareColors c0 then invoke i (Chart.Colors (colors (super c0))) c0 else c0) =
  set_calls (calls c0 ++ colour_calls c i)
    (set_children (alter (coloured c) i (_children c0)) c0).
Proof.
  intros Hc0. destruct (settings_agree _ _ Hc0) as (Hs & _ & Hsc & _).
  unfold colour_calls. rewrite Hs, Hsc. destruct (_shareColors c) eqn:E.
  - unfold invoke. f_equal. f_equal. apply list_alter_ext; [|reflexivity].
    intros child _. unfold coloured. rewrite E. reflexivity.
  - rewrite app_nil_r, list_alter_id.
    + by destruct c0.
    + intros child. unfold coloured. rewrite E. reflexivity.
Qed.

Lemma legendables_reached (c : CompositeChart any T) : forall n,
  n <= length (_children c) ->
  for_range n
    (fun i '(items, c) =>
       let c := if _shareColors c then invoke i (Chart.Colors (colors (super c))) c else c in
       match _children c !! i with
       | Some child => (items ++ Chart.legendables child, c)
       | None => (items, c)
       end)
    ([], c) =
  (concat (map (fun child => Chart.legendables (coloured c child)) (take n (_children c))),
   set_calls (calls c ++ concat (map (colour_calls c) (seq 0 n)))
     (set_children (map (coloured c) (take n (_children c)) ++ drop n (_children c)) c)).
Proof.
  induction n as [|n IH]; intros Hn.
  - cbn. rewrite app_nil_r, drop_0. by destruct c.
  - rewrite for_range_S, IH by lia. clear IH.
    cbv beta iota zeta. rewrite (colour_step c) by reflexivity.
    cbn [calls _children set_calls set_children].
    rewrite alter_reached by lia. rewrite lookup_reached.
    destruct (lookup_lt_is_Some_2 (_children c) n) as [x Hx]; [lia|].
    rewrite Hx. cbn [fmap option_fmap option_map].
    rewrite (take_S_r _ _ _ Hx), !map_app, !concat_app, seq_S, map_app, concat_app.
    cbn [map concat Nat.add]. rewrite !app_nil_r, app_assoc. reflexivity.
Qed.

(** C10.  [legendables()] answers the legend items of the children put end
    to end, the children in the order of the child list and each child's
    items in the child's own order; a child is asked after it has been given
    the composite's colours, when colours are shared, and as it is
    otherwise, in which case the composite is left as it was.  With no child
    the answer is the empty list. *)
Theorem legendables_concatenates (c : CompositeChart any T) :
  fst (legendables c) =
    concat (map (fun child =>
                   Chart.legendables
                     (if _shareColors c
                      then Chart.call (Chart.Colors (colors (super c))) child
                      else child))
              (_children c)) /\
  (_shareColors c = false ->
     legendables c = (concat (map (fun child => Chart.legendables child) (_children c)), c)) /\
  (_children c = [] -> fst (legendables c) = []).
Proof.
  assert (Hl : legendables c =
               (concat (map (fun child => Chart.legendables (coloured c child)) (_children c)),
                set_calls (calls c ++ concat (map (colour_calls c) (seq 0 (length (_children c)))))
                  (set_children (map (coloured c) (_children c)) c))).
  { unfold legendables. etransitivity; [apply (legendables_reached c); lia|].
    rewrite firstn_all, drop_all, app_nil_r. reflexivity. }
  rewrite Hl. cbn [fst].
  split; [reflexivity|]. split.
  - intros Hsc. unfold coloured, colour_calls. rewrite Hsc.
    rewrite map_id, concat_nils, app_nil_r. f_equal. by destruct c.
  - intros ->. reflexivity.
Qed.

(** *** The y axes *)

Lemma sideMin_unfold (s : Side) (c : CompositeChart any T) :
  sideMin s c = d3.min (map (fun child => Chart.yAxisMin child) (sideChildren s c)).
Proof. by destruct s. Qed.

Lemma sideMax_unfold (s : Side) (c : CompositeChart any T) :
  sideMax s c =
  Js.add (d3.max (map (fun child => Chart.yAxisMax child) (sideChildren s c)))
    (yAxisPadding (super c)).
Proof. by destruct s. Qed.

Lemma sideChildren_flag (s : Side) (c : CompositeChart any T) :
  sideChildren s c =
  List.filter (fun child => Bool.eqb (Chart.useRightYAxis child)
                              match s with LeftSide => false | RightSide => true end)
    (_children c).
Proof.
  destruct s; cbn [sideChildren]; unfold _leftYAxisChildren, _rightYAxisChildren;
    apply filter_ext; intros child; by destruct (Chart.useRightYAxis child).
Qed.

(** C6.  The side of a child is decided by its [useRightYAxis()] alone: the
    children of a side are the children with the flag of the side, in the
    order of the child list.  When a child of the composite has the flag of
    a side, and the children with that flag report numbers, the side's
    minimum is the [yAxisMin()] of one of them and none of them reports
    less; the side's maximum is the [yAxisMax()] of one of them, of which
    none of them reports more, plus the y axis padding.  Children with the
    other flag count for nothing: composites with the same children of the
    side and the same padding have the same two extents. *)
Theorem side_extents (s : Side) (c : CompositeChart any T) :
  let flag := match s with LeftSide => false | RightSide => true end in
  let assigned := fun child : T => Bool.eqb (Chart.useRightYAxis child) flag in
  (exists child, child ∈ _children c /\ Chart.useRightYAxis child = flag) ->
  (forall child, child ∈ _children c -> Chart.useRightYAxis child = flag ->
     comparable (Chart.yAxisMin child) /\ comparable (Chart.yAxisMax child)) ->
  sideChildren s c = List.filter assigned (_children c) /\
  (exists lowest,
      lowest ∈ _children c /\ Chart.useRightYAxis lowest = flag /\
      sideMin s c = Chart.yAxisMin lowest /\
      forall child, child ∈ _children c -> Chart.useRightYAxis child = flag ->
        Js.ge (Chart.yAxisMin child) (Chart.yAxisMin lowest) = true) /\
  (exists highest,
      highest ∈ _children c /\ Chart.useRightYAxis highest = flag /\
      sideMax s c = Js.add (Chart.yAxisMax highest) (yAxisPadding (super c)) /\
      forall child, child ∈ _children c -> Chart.useRightYAxis child = flag ->
        Js.ge (Chart.yAxisMax highest) (Chart.yAxisMax child) = true) /\
  (forall c' : CompositeChart any T,
      List.filter assigned (_children c') = List.filter assigned (_children c) ->
      yAxisPadding (super c') = yAxisPadding (super c) ->
      sideMin s c' = sideMin s c /\ sideMax s c' = sideMax s c).
Proof.
  intros flag assigned (some & Hsome & Hside) Hnum.
  split; [apply sideChildren_flag|].
  rewrite sideMin_unfold, sideMax_unfold.
  set (l := sideChildren s c).
  assert (Hl : forall child,
             child ∈ l <-> child ∈ _children c /\ Chart.useRightYAxis child = flag).
  { intros child. unfold l. rewrite sideChildren_flag, !list_elem_of_In, filter_In.
    fold flag. by rewrite Bool.eqb_true_iff. }
  assert (Hall : Forall (fun child => comparable (Chart.yAxisMin child) /\
                                      comparable (Chart.yAxisMax child)) l).
  { apply Forall_forall. intros child Hin. apply Hl in Hin as [Hin Hon]. by apply Hnum. }
  assert (Hmins : Forall comparable (map (fun child => Chart.yAxisMin child) l)).
  { apply Forall_map. eapply Forall_impl; [exact Hall|]. by intros child [? _]. }
  assert (Hmaxs : Forall comparable (map (fun child => Chart.yAxisMax child) l)).
  { apply Forall_map. eapply Forall_impl; [exact Hall|]. by intros child [_ ?]. }
  assert (Hne : forall f : T -> value, map f l <> []).
  { intros f Hnil. assert (Hin : some ∈ l) by (by apply Hl).
    destruct l; [by apply elem_of_nil in Hin | discriminate]. }
  destruct (d3_min_spec _ (Hne _) Hmins) as [Hin Hlow].
  destruct (d3_max_spec _ (Hne _) Hmaxs) as [Hin' Hhigh].
  apply list_elem_of_In, in_map_iff in Hin as (lowest & Hlowest & Hin).
  apply list_elem_of_In, in_map_iff in Hin' as (highest & Hhighest & Hin').
  apply list_elem_of_In, Hl in Hin as [Hin Hon].
  apply list_elem_of_In, Hl in Hin' as [Hin' Hon'].
  split; [|split].
  - exists lowest. split; [exact Hin|]. split; [exact Hon|]. split; [by rewrite Hlowest|].
    intros child Hchild Hc. rewrite Hlowest.
    apply Forall_map in Hlow. rewrite Forall_forall in Hlow. apply Hlow. by apply Hl.
  - exists highest. split; [exact Hin'|]. split; [exact Hon'|]. split; [by rewrite Hhighest|].
    intros child Hchild Hc. rewrite Hhighest.
    apply Forall_map in Hhigh. rewrite Forall_forall in Hhigh. apply Hhigh. by apply Hl.
  - intros c' Hsame Hpad. rewrite sideMin_unfold, sideMax_unfold.
    unfold l. rewrite !sideChildren_flag. fold flag. fold assigned.
    rewrite Hsame, Hpad. done.
Qed.

(** C2.  The ranges [_prepareYAxis] works with.  With [alignYAxes] on and a
    child on either side they are the aligned ranges: for
    [extentRatio = (rightMax - rightMin) / (leftMax - leftMin)], the left
    range runs from [min(leftMin, rightMin / extentRatio)] to
    [max(leftMax, rightMax / extentRatio)] and the right range from
    [min(rightMin, leftMin * extentRatio)] to
    [max(rightMax, leftMax * extentRatio)].  With the flag off, or a side
    without a child, a side that has children keeps its own minimum and
    maximum, and a side that has none has no range: both its ends are
    [undefined]. *)
Theorem y_axis_ranges (c : CompositeChart any T) :
  let leftMin := _yAxisMin c in
  let leftMax := _yAxisMax c in
  let rightMin := _rightYAxisMin c in
  let rightMax := _rightYAxisMax c in
  let extentRatio := div (sub rightMax rightMin) (sub leftMax leftMin) in
  let ranges := _prepareYAxis_ranges c in
  (_alignYAxes c = true -> _leftYAxisChildren c <> [] -> _rightYAxisChildren c <> [] ->
   ranges =
   {| lyAxisMin := Math_min leftMin (div rightMin extentRatio);
      lyAxisMax := Math_max leftMax (div rightMax extentRatio);
      ryAxisMin := Math_min rightMin (mul leftMin extentRatio);
      ryAxisMax := Math_max rightMax (mul leftMax extentRatio) |}) /\
  (_alignYAxes c = false \/ _leftYAxisChildren c = [] \/ _rightYAxisChildren c = [] ->
   (_leftYAxisChildren c <> [] ->
      lyAxisMin ranges = leftMin /\ lyAxisMax ranges = leftMax) /\
   (_rightYAxisChildren c <> [] ->
      ryAxisMin ranges = rightMin /\ ryAxisMax ranges = rightMax) /\
   (_leftYAxisChildren c = [] ->
      lyAxisMin ranges = Undefined /\ lyAxisMax ranges = Undefined) /\
   (_rightYAxisChildren c = [] ->
      ryAxisMin ranges = Undefined /\ ryAxisMax ranges = Undefined)).
Proof.
  cbv zeta. unfold _prepareYAxis_ranges, _calculateYAxisRanges.
  destruct (_leftYAxisChildren c) as [|l ls] eqn:El,
           (_rightYAxisChildren c) as [|r rs] eqn:Er,
           (_alignYAxes c) eqn:Ea;
    cbn [length Nat.eqb negb andb lyAxisMin lyAxisMax ryAxisMin ryAxisMax];
    (split; [intros; try congruence; try reflexivity|]);
    intros Hoff; repeat split; intros; try congruence; try reflexivity;
    destruct Hoff as [?|[?|?]]; congruence.
Qed.

(** C4.  [yAxisMin()] and [yAxisMax()] of a composite throw, whatever the
    state of the composite: neither completes with a value. *)
Theorem composite_axis_extent_throws (c : CompositeChart any T) :
  yAxisMin c = Throw "Not supported for this chart type" /\
  yAxisMax c = Throw "Not supported for this chart type" /\
  (forall v, yAxisMin c <> Normal v) /\
  (forall v, yAxisMax c <> Normal v).
Proof. repeat split; intros v; discriminate. Qed.

(** C8.  [useRightAxisGridLines] never reads: whatever the arguments, it
    answers the chart and stores its first argument.  Called with an
    argument it stores that value; called with none it stores [undefined]
    over the configured value, where a getter would answer that value and
    leave it alone. *)
Theorem useRightAxisGridLines_never_reads (arguments : list bool) (c : CompositeChart any T) :
  useRightAxisGridLines arguments c = (This, set_rightAxisGridLines (head arguments) c) /\
  (forall b rest, arguments = b :: rest ->
     _rightAxisGridLines (snd (useRightAxisGridLines arguments c)) = Some b) /\
  (arguments = [] ->
     fst (useRightAxisGridLines arguments c) <> Value (_rightAxisGridLines c) /\
     _rightAxisGridLines (snd (useRightAxisGridLines arguments c)) = None).
Proof.
  split; [reflexivity|]. split.
  - intros b rest ->. reflexivity.
  - intros ->. split; [discriminate | reflexivity].
Qed.

End CompositeFacts.

(** ** Alignment of the two y axes, in doubles *)

Section Doubles.

Import Floats binary64.
Local Open Scope float_scope.





(** *** The order of the doubles *)

Lemma SFcompare_antisym (x y : spec_float) (c : comparison) :
  SFcompare x y = Some c -> SFcompare y x = Some (CompOpp c).
Proof.
  destruct x as [sx|sx| |sx mx ex], y as [sy|sy| |sy my ey]; cbn;
    try discriminate; intros [= <-]; try (by destruct sx); try (by destruct sy);
    try (by destruct sx, sy).
  destruct sx, sy; try reflexivity.
  - rewrite (Z.compare_antisym ey ex). destruct (ey ?= ex)%Z; cbn; try reflexivity.
    by rewrite (Pos.compare_cont_antisym mx my Eq).
  - rewrite (Z.compare_antisym ey ex). destruct (ey ?= ex)%Z; cbn; try reflexivity.
    by rewrite (Pos.compare_cont_antisym mx my Eq).
Qed.

Lemma not_nan_compares (x : float) :
  is_nan x = false -> SFcompare (Prim2SF x) (Prim2SF x) = Some Eq.
Proof.
  unfold is_nan. rewrite eqb_spec. unfold SFeqb.
  destruct (SFcompare (Prim2SF x) (Prim2SF x)) as [[]|]; cbn; congruence.
Qed.

Lemma numbers_compare (x y : float) :
  is_nan x = false -> is_nan y = false ->
  exists c, SFcompare (Prim2SF x) (Prim2SF y) = Some c.
Proof.
  intros Hx Hy. apply not_nan_compares in Hx, Hy.
  destruct (Prim2SF x) as [sx|sx| |sx mx ex], (Prim2SF y) as [sy|sy| |sy my ey];
    try discriminate; cbn; eauto.
Qed.

Lemma leb_refl (x : float) : is_nan x = false -> (x <=? x) = true.
Proof. intros Hx. rewrite leb_spec. unfold SFleb. by rewrite (not_nan_compares x Hx). Qed.

Lemma ltb_leb (x y : float) : (x <? y) = true -> (x <=? y) = true.
Proof.
  rewrite ltb_spec, leb_spec. unfold SFltb, SFleb.
  by destruct (SFcompare (Prim2SF x) (Prim2SF y)) as [[]|].
Qed.

Lemma not_ltb_leb (x y : float) :
  is_nan x = false -> is_nan y = false -> (x <? y) = false -> (y <=? x) = true.
Proof.
  intros Hx Hy. destruct (numbers_compare x y Hx Hy) as [c Hc].
  rewrite ltb_spec, leb_spec. unfold SFltb, SFleb.
  rewrite Hc, (SFcompare_antisym _ _ _ Hc). by destruct c.
Qed.

(** [Math.min] answers NaN or a number that is at most either argument, and
    [Math.max] NaN or a number that is at least either. *)
Lemma Math_min_bound (a b : float) :
  is_nan (Math_min a b) = true \/
  (Math_min a b <=? a) = true /\ (Math_min a b <=? b) = true.
Proof.
  unfold Math_min.
  destruct (is_nan a) eqn:Ha; [by left|]. destruct (is_nan b) eqn:Hb; [by left|]. cbn [orb].
  right. destruct (a <? b) eqn:Hab.
  - split; [by apply leb_refl | by apply ltb_leb].
  - destruct (b <? a) eqn:Hba.
    + split; [by apply ltb_leb | by apply leb_refl].
    + destruct (get_sign a).
      * split; [by apply leb_refl | by apply not_ltb_leb].
      * split; [by apply not_ltb_leb | by apply leb_refl].
Qed.

Lemma Math_max_bound (a b : float) :
  is_nan (Math_max a b) = true \/
  (a <=? Math_max a b) = true /\ (b <=? Math_max a b) = true.
Proof.
  unfold Math_max.
  destruct (is_nan a) eqn:Ha; [by left|]. destruct (is_nan b) eqn:Hb; [by left|]. cbn [orb].
  right. destruct (a <? b) eqn:Hab.
  - split; [by apply ltb_leb | by apply leb_refl].
  - destruct (b <? a) eqn:Hba.
    + split; [by apply leb_refl | by apply ltb_leb].
    + destruct (get_sign a).
      * split; [by apply not_ltb_leb | by apply leb_refl].
      * split; [by apply leb_refl | by apply not_ltb_leb].
Qed.

(** X1.  Alignment never cuts into a range.  Whatever four doubles it is
    given, every end it answers is NaN or lies on or beyond the end given:
    an aligned minimum that is a number is at most the minimum given, and
    an aligned maximum that is a number is at least the maximum given. *)
Theorem alignment_keeps_the_ranges (lmin lmax rmin rmax : float) :
  let r := _alignYAxisRanges lmin lmax rmin rmax in
  (is_nan (lyAxisMin r) = true \/ (lyAxisMin r <=? lmin) = true) /\
  (is_nan (lyAxisMax r) = true \/ (lmax <=? lyAxisMax r) = true) /\
  (is_nan (ryAxisMin r) = true \/ (ryAxisMin r <=? rmin) = true) /\
  (is_nan (ryAxisMax r) = true \/ (rmax <=? ryAxisMax r) = true).
Proof.
  cbv zeta. unfold _alignYAxisRanges. cbn [lyAxisMin lyAxisMax ryAxisMin ryAxisMax].
  repeat split.
  - destruct (Math_min_bound lmin (rmin / ((rmax - rmin) / (lmax - lmin)))) as [?|[? _]]; auto.
  - destruct (Math_max_bound lmax (rmax / ((rmax - rmin) / (lmax - lmin)))) as [?|[? _]]; auto.
  - destruct (Math_min_bound rmin (lmin * ((rmax - rmin) / (lmax - lmin)))) as [?|[? _]]; auto.
  - destruct (Math_max_bound rmax (lmax * ((rmax - rmin) / (lmax - lmin)))) as [?|[? _]]; auto.
Qed.

End Doubles.

(** ** The base read *)

Section AdapterFacts.

Import c_f_simple_adapter.

(** The copies go to the end of the heap: what was there stays where it was. *)
Lemma array_map_spread_extends (array : list nat) : forall h : heap,
  exists copies : heap, snd (array_map (fun val h => spread val h) array h) = h ++ copies.
Proof.
  induction array as [|e rest IH]; intros h; simpl.
  - exists []. by rewrite app_nil_r.
  - destruct (IH (h ++ [default ∅ (h !! e)])) as [copies Hcopies].
    destruct (array_map _ rest _) as [rest' h'']. simpl in *.
    exists ([default ∅ (h !! e)] ++ copies). by rewrite Hcopies, <- app_assoc.
Qed.

Lemma put_same (r : nat) (name : string) (v : property) (h : heap) (o : object) :
  h !! r = Some o -> put r name v h !! r = Some (<[name := v]> o).
Proof. intros Hr. unfold put. by rewrite list_lookup_alter_eq, Hr. Qed.

Lemma put_other (r e : nat) (name : string) (v : property) (h : heap) :
  e <> r -> put e name v h !! r = h !! r.
Proof. intros Hne. unfold put. by rewrite list_lookup_alter_ne. Qed.

(** Once written, a record stays written through the rest of the walk. *)
Lemma forEach_keeps_written (accessor : heap -> nat -> property) (r : nat) (o : object)
    (array : list nat) : forall (h : heap) (o' : object),
  h !! r = Some o' -> written o o' ->
  exists o'',
    array_forEach (fun e h => put e "_value" (accessor h e) h) array h !! r = Some o'' /\
    written o o''.
Proof.
  induction array as [|e rest IH]; intros h o' Hr Hw; simpl; [by eauto|].
  destruct (decide (e = r)) as [->|Hne].
  - apply (IH _ (<["_value" := accessor h r]> o')); [by apply put_same|].
    destruct Hw as [v ->]. exists (accessor h r). by rewrite insert_insert_eq.
  - apply (IH _ o'); [by rewrite put_other | exact Hw].
Qed.

(** The walk writes every record it comes by. *)
Lemma forEach_writes (accessor : heap -> nat -> property) (r : nat) (o : object)
    (array : list nat) : forall h : heap,
  h !! r = Some o -> r ∈ array ->
  exists o'',
    array_forEach (fun e h => put e "_value" (accessor h e) h) array h !! r = Some o'' /\
    written o o''.
Proof.
  induction array as [|e rest IH]; intros h Hr Hin; simpl.
  - by apply elem_of_nil in Hin.
  - destruct (decide (e = r)) as [->|Hne].
    + apply (forEach_keeps_written _ _ _ _ _ (<["_value" := accessor h r]> o)).
      * by apply put_same.
      * by exists (accessor h r).
    + apply IH; [by rewrite put_other|].
      apply elem_of_cons in Hin as [->|Hin]; [done | exact Hin].
Qed.

(** C1.  The base read writes into the source's own records.  [data()]
    hands back the very references [all()] gave, and afterwards every
    record of the source that was on the heap is the record it was with a
    [_value] field put in: the copies made on the way are dropped, and a
    record that had no [_value] field is not what it was. *)
Theorem data_writes_the_source_records (_conf : ICFSimpleAdapterConf) (h : heap)
    (r : nat) (o : object) :
  r ∈ all (group _conf) -> h !! r = Some o ->
  fst (data _conf h) = all (group _conf) /\
  (exists v, snd (data _conf h) !! r = Some (<["_value" := v]> o)) /\
  (o !! "_value" = None -> snd (data _conf h) !! r <> h !! r).
Proof.
  intros Hin Hr. unfold data.
  destruct (array_map_spread_extends (all (group _conf)) h) as [copies Hcopies].
  destruct (array_map _ (all (group _conf)) h) as [dropped h1]. simpl in Hcopies. subst h1.
  cbn [fst snd].
  assert (Hr1 : (h ++ copies) !! r = Some o).
  { rewrite lookup_app_l; [exact Hr | by eapply lookup_lt_Some]. }
  destruct (forEach_writes (valueAccessor _conf) r o (all (group _conf)) _ Hr1 Hin)
    as (o'' & Hr'' & [v ->]).
  split; [reflexivity|]. split; [by exists v|].
  intros Hnone. rewrite Hr'', Hr. intros [= Heq].
  apply (f_equal (fun m : object => m !! "_value")) in Heq.
  rewrite lookup_insert_eq, Hnone in Heq. discriminate.
Qed.

End AdapterFacts.

(** ** The properties at work *)

Section AtWork.

Import composite_chart plain_chart c_f_simple_adapter.
Local Open Scope Q_scope.

(** The line and the bars with alignment on: a child on either side, and the
    ranges are the aligned ranges of [-2 .. 8] and [-10 .. 40]. *)
Lemma y_axis_ranges_witness :
  (_alignYAxes aligned = true /\
   _leftYAxisChildren aligned <> [] /\ _rightYAxisChildren aligned <> []) /\
  _prepareYAxis_ranges aligned = _alignYAxisRanges (Num (-2)) (Num 8) (Num (-10)) (Num 40).
Proof.
  assert (Hflag : _alignYAxes aligned = true) by reflexivity.
  assert (Hleft : _leftYAxisChildren aligned <> []) by (vm_compute; discriminate).
  assert (Hright : _rightYAxisChildren aligned <> []) by (vm_compute; discriminate).
  split; [auto|].
  destruct (y_axis_ranges aligned) as [Haligned _].
  rewrite (Haligned Hflag Hleft Hright). vm_compute. reflexivity.
Defined.

(** A plain chart answers the filter it was last given, and after the
    handler both composed charts answer the composite's. *)
Lemma filter_propagation_witness :
  (forall (f : string) (child : PlainChart),
     Chart.filter (Chart.call (Chart.ReplaceFilter f) child) = f) /\
  Forall (fun child : PlainChart => Chart.filter child = "[2, 5)")
    (_children (on_filtered composed)).
Proof.
  assert (Hreplace : forall (f : string) (child : PlainChart),
            Chart.filter (Chart.call (Chart.ReplaceFilter f) child) = f)
    by reflexivity.
  split; [exact Hreplace|].
  exact (proj2 (proj2 (proj2 (filter_propagation composed Hreplace)))).
Defined.

(** The source's one record: it is on the heap and among what [all()]
    answers, and the read leaves it written. *)
Lemma data_writes_the_source_records_witness :
  (0%nat ∈ all (group one_record_conf) /\
   one_record !! 0%nat = Some {[ "key" := Number (Num 1); "value" := Number (Num 2) ]}) /\
  fst (data one_record_conf one_record) = [0%nat] /\
  (exists v, snd (data one_record_conf one_record) !! 0%nat =
             Some (<["_value" := v]> {[ "key" := Number (Num 1); "value" := Number (Num 2) ]})) /\
  (({[ "key" := Number (Num 1); "value" := Number (Num 2) ]} : object) !! "_value" = None ->
   snd (data one_record_conf one_record) !! 0%nat <> one_record !! 0%nat).
Proof.
  assert (Hin : 0%nat ∈ all (group one_record_conf)) by apply list_elem_of_here.
  assert (Hr : one_record !! 0%nat
               = Some {[ "key" := Number (Num 1); "value" := Number (Num 2) ]})
    by reflexivity.
  split; [auto|].
  exact (data_writes_the_source_records one_record_conf one_record 0 _ Hin Hr).
Defined.

(** [d3.min] and [d3.max] pass over what does not compare, and division by
    zero leaves the finite numbers. *)
Example d3_extremes :
  d3.min [NaN; Num 3; Undefined; Num 1; Num 2] = Num 1 /\
  d3.max [NaN; Num 3; Undefined; Num 1; Num 2] = Num 3 /\
  d3.min [] = Undefined /\
  d3.max [Undefined; NaN] = Undefined.
Proof. repeat split. Qed.

Example division_by_zero :
  div (Num 1) (Num 0) = Infinity /\ div (Num (-1)) (Num 0) = NegInfinity /\
  div (Num 0) (Num 0) = NaN /\ Math_min (Num 1) (div (Num 0) (Num 0)) = NaN.
Proof. repeat split. Qed.

(** Composing the line and the bars into a fresh composite, call by call. *)
Example calls_of_compose :
  calls composed =
  [(0%nat, Chart.Height "200"); (0%nat, Chart.Width "300"); (0%nat, Chart.Margins "margins");
   (0%nat, Chart.Title "title"); (0%nat, Chart.Options "{}");
   (1%nat, Chart.Height "200"); (1%nat, Chart.Width "300"); (1%nat, Chart.Margins "margins");
   (1%nat, Chart.Title "title"); (1%nat, Chart.Options "{}")].
Proof. vm_compute. reflexivity. Qed.

Example legend_of_composed :
  fst (legendables composed) = ["line"; "bars"; "more bars"].
Proof. vm_compute. reflexivity. Qed.

(** The record of the source after the read: it has gained [_value: 2], and
    the copy sits unused behind it. *)
Example base_read_of_one_record :
  data one_record_conf one_record =
  ([0%nat],
   [ {[ "key" := Number (Num 1); "value" := Number (Num 2); "_value" := Number (Num 2) ]};
     {[ "key" := Number (Num 1); "value" := Number (Num 2) ]} ]).
Proof. vm_compute. reflexivity. Qed.

(** A getter call on a fresh composite: the chart comes back and the
    configured [false] is gone. *)
Example useRightAxisGridLines_of_fresh :
  _rightAxisGridLines fresh = Some false /\
  useRightAxisGridLines [] fresh = (This, set_rightAxisGridLines None fresh).
Proof. split; reflexivity. Qed.

End AtWork.

Section DoublesAtWork.

Import Floats binary64.
Local Open Scope float_scope.



(** The example of the specification is aligned as it stands; the ranges
    [-1 .. 3] and [-1 .. 9] are stretched, the left one upwards and the right
    one downwards. *)
Example alignment_of_the_example :
  _alignYAxisRanges (of_Z (-2)) (of_Z 8) (of_Z (-10)) (of_Z 40) =
  {| lyAxisMin := of_Z (-2); lyAxisMax := of_Z 8;
     ryAxisMin := of_Z (-10); ryAxisMax := of_Z 40 |}.
Proof. vm_compute. reflexivity. Qed.

Example alignment_stretches :
  _alignYAxisRanges (of_Z (-1)) (of_Z 3) (of_Z (-1)) (of_Z 9) =
  {| lyAxisMin := of_Z (-1); lyAxisMax := 0x1.ccccccccccccdp+1;
     ryAxisMin := -0x1.4p+1; ryAxisMax := of_Z 9 |}.
Proof. vm_compute. reflexivity. Qed.

(** Spans that overflow: of the ranges [-1e308 .. 1e308] and [-1 .. 1] the
    left span is infinite, the left range comes out infinite, and the two
    fractions are NaN and [-0.5]. *)
Example alignment_overflows :
  let huge := 0x1.1ccf385ebc8ap+1023 in
  let r := _alignYAxisRanges (- huge) huge (of_Z (-1)) (of_Z 1) in
  r = {| lyAxisMin := neg_infinity; lyAxisMax := infinity;
         ryAxisMin := of_Z (-1); ryAxisMax := of_Z 1 |} /\
  is_nan (left_fraction r) = true /\ strict_eq (right_fraction r) (-0x1p-1) = true.
Proof. vm_compute. repeat split. Qed.

(** Aligning what has been aligned moves an end by a rounding: of the
    ranges [-1 .. 2] and [-1 .. 9] the right minimum comes out
    [-3.3333333333333335] and, aligned again, [-3.333333333333334]. *)
Example alignment_twice :
  let r := _alignYAxisRanges (of_Z (-1)) (of_Z 2) (of_Z (-1)) (of_Z 9) in
  let r' := _alignYAxisRanges (lyAxisMin r) (lyAxisMax r) (ryAxisMin r) (ryAxisMax r) in
  ryAxisMin r = -0x1.aaaaaaaaaaaabp+1 /\ ryAxisMin r' = -0x1.aaaaaaaaaaaacp+1.
Proof. vm_compute. split; reflexivity. Qed.

End DoublesAtWork.

Section SidesAtWork.

Import composite_chart plain_chart sides_example.

(** The line, the bars and the area with a padding of 5: the bars and the
    area are on the right, both report numbers, and the right side runs
    from the least minimum of the two to their greatest maximum plus the
    padding. *)
Lemma side_extents_witness :
  ((exists child : PlainChart, child ∈ _children three /\ Chart.useRightYAxis child = true) /\
   (forall child : PlainChart, child ∈ _children three -> Chart.useRightYAxis child = true ->
      comparable (Chart.yAxisMin child) /\ comparable (Chart.yAxisMax child))) /\
  (exists lowest : PlainChart,
      lowest ∈ _children three /\ Chart.useRightYAxis lowest = true /\
      sideMin RightSide three = Chart.yAxisMin lowest /\
      forall child, child ∈ _children three -> Chart.useRightYAxis child = true ->
        Js.ge (Chart.yAxisMin child) (Chart.yAxisMin lowest) = true) /\
  (exists highest : PlainChart,
      highest ∈ _children three /\ Chart.useRightYAxis highest = true /\
      sideMax RightSide three =
        Js.add (Chart.yAxisMax highest) (yAxisPadding (super three)) /\
      forall child, child ∈ _children three -> Chart.useRightYAxis child = true ->
        Js.ge (Chart.yAxisMax highest) (Chart.yAxisMax child) = true).
Proof.
  assert (Hall : Forall (fun child : PlainChart =>
                           comparable (Chart.yAxisMin child) /\
                           comparable (Chart.yAxisMax child)) (_children three))
    by (vm_compute; repeat constructor).
  assert (Hright : exists child : PlainChart,
             child ∈ _children three /\ Chart.useRightYAxis child = true).
  { apply Exists_exists. vm_compute. apply Exists_cons_tl, Exists_cons_hd. reflexivity. }
  assert (Hnum : forall child : PlainChart,
             child ∈ _children three -> Chart.useRightYAxis child = true ->
             comparable (Chart.yAxisMin child) /\ comparable (Chart.yAxisMax child)).
  { intros child Hin _. rewrite Forall_forall in Hall. by apply Hall. }
  split; [auto|].
  destruct (side_extents RightSide three Hright Hnum) as (_ & Hmin & Hmax & _).
  split; [exact Hmin | exact Hmax].
Defined.

(** In numbers: the right side runs from [-20] to [40 + 5], and the left
    side, the line alone, from [-2] to [8 + 5]. *)
Example extents_of_three :
  sideMin RightSide three = Num (-20) /\ sideMax RightSide three = Num 45 /\
  sideMin LeftSide three = Num (-2) /\ sideMax LeftSide three = Num 13.
Proof. vm_compute. repeat split. Qed.

End SidesAtWork.

(** * Further properties *)

(** ** More on the alignment of the two y axes *)

Section AlignmentMore.
Import composite_chart.
Local Open Scope Q_scope.

Lemma is_zero_Qeq x y : x == y -> is_zero (Num x) = is_zero (Num y).
Proof. intros E. unfold is_zero. by rewrite E. Qed.

Lemma is_negative_Qeq x y : x == y -> is_negative (Num x) = is_negative (Num y).
Proof. intros E. unfold is_negative. by rewrite E. Qed.

Lemma is_zero_true q : q == 0 -> is_zero (Num q) = true.
Proof. intros E. unfold is_zero. apply Qeq_alt in E. by rewrite E. Qed.

(** Products and quotients that leave the finite numbers, and the smaller
    and the larger of a number and what is not one. *)
Lemma mul_Num_infinity x s :
  mul (Num x) (signed_infinity s) =
  if is_zero (Num x) then NaN else signed_infinity (xorb (is_negative (Num x)) s).
Proof. destruct s; unfold mul; simpl; destruct (x ?= 0); reflexivity. Qed.

Lemma div_Num_zero x y :
  is_zero (Num y) = true ->
  div (Num x) (Num y) =
  if is_zero (Num x) then NaN else signed_infinity (is_negative (Num x)).
Proof. intros Hy. unfold div. cbn [ToNumber]. by rewrite Hy. Qed.

Lemma not_finite_NaN : ~ finite NaN.
Proof. intros [q Hq]. discriminate. Qed.

Lemma not_finite_infinity s : ~ finite (signed_infinity s).
Proof. intros [q Hq]. destruct s; discriminate. Qed.

Lemma Math_min_NaN a : Math_min a NaN = NaN.
Proof. unfold Math_min, cmp. by destruct (ToNumber a). Qed.

Lemma Math_max_NaN a : Math_max a NaN = NaN.
Proof. unfold Math_max, cmp. by destruct (ToNumber a). Qed.

(** One end of a range stretched to an infinity is that infinity. *)
Lemma stretched_to_infinity x y s :
  ~ (finite (Math_min (Num x) (signed_infinity s)) /\
     finite (Math_max (Num y) (signed_infinity s))).
Proof.
  destruct s; cbn; intros [[q1 Hq1] [q2 Hq2]]; discriminate.
Qed.

(** X5.  A flat range spoils the other axis.  When the left range has no
    span, the aligned right range has an end that is not a finite number;
    when the right range has no span, so has the aligned left range. *)
Theorem alignment_of_a_flat_range lmin lmax rmin rmax :
  let r := _alignYAxisRanges (Num lmin) (Num lmax) (Num rmin) (Num rmax) in
  (lmax - lmin == 0 -> ~ (finite (ryAxisMin r) /\ finite (ryAxisMax r))) /\
  (rmax - rmin == 0 -> ~ (finite (lyAxisMin r) /\ finite (lyAxisMax r))).
Proof.
  cbv zeta. unfold _alignYAxisRanges. cbn [lyAxisMin lyAxisMax ryAxisMin ryAxisMax].
  rewrite !sub_Num. split.
  - intros Hflat. assert (Hsame : lmax == lmin) by lra.
    rewrite (div_Num_zero _ _ (is_zero_true _ Hflat)).
    destruct (is_zero (Num (rmax - rmin))).
    + replace (mul (Num lmin) NaN) with NaN by reflexivity.
      rewrite Math_min_NaN. intros [Hfin _]. by apply not_finite_NaN in Hfin.
    + rewrite !mul_Num_infinity, (is_zero_Qeq _ _ Hsame), (is_negative_Qeq _ _ Hsame).
      destruct (is_zero (Num lmin)).
      * rewrite Math_min_NaN. intros [Hfin _]. by apply not_finite_NaN in Hfin.
      * apply stretched_to_infinity.
  - intros Hflat. assert (Hsame : rmax == rmin) by lra.
    destruct (is_zero (Num (lmax - lmin))) eqn:Hl.
    + rewrite (div_Num_zero _ _ Hl), (is_zero_true _ Hflat).
      replace (div (Num rmin) NaN) with NaN by reflexivity.
      rewrite Math_min_NaN. intros [Hfin _]. by apply not_finite_NaN in Hfin.
    + apply is_zero_Num in Hl. rewrite (div_Num _ _ Hl).
      assert (Hq0 : is_zero (Num ((rmax - rmin) / (lmax - lmin))) = true).
      { apply is_zero_true. rewrite Hflat. unfold Qdiv. ring. }
      rewrite !(div_Num_zero _ _ Hq0), (is_zero_Qeq _ _ Hsame), (is_negative_Qeq _ _ Hsame).
      destruct (is_zero (Num rmin)).
      * rewrite Math_min_NaN. intros [Hfin _]. by apply not_finite_NaN in Hfin.
      * apply stretched_to_infinity.
Qed.

End AlignmentMore.

(** ** More on the composite chart *)

Section CompositeMore.
Import composite_chart.
Context {any T : Type} `{!Chart.Contract any T}.

(** X6.  [childOptions] with an argument stores it and hands it to every
    child the composite has at the time, in the order of the child list,
    composed or not before; read back with no argument, it answers the
    stored value and changes nothing. *)
Theorem childOptions_reaches_the_children (o : any) (rest : list any) (c : CompositeChart any T) :
  let c' := snd (childOptions (o :: rest) c) in
  fst (childOptions (o :: rest) c) = This /\
  _children c' = map (Chart.call (Chart.Options o)) (_children c) /\
  calls c' = calls c ++ map (fun i => (i, Chart.Options o)) (seq 0 (length (_children c))) /\
  childOptions [] c' = (Value o, c') /\
  settings c' = settings (set_childOptions o c).
Proof.
  cbv zeta. unfold childOptions. cbn [fst snd].
  rewrite (for_range_all_children (Chart.call (Chart.Options o)) (fun i => [(i, Chart.Options o)])).
  - rewrite concat_singletons. repeat split.
  - intros i c' Hc'. destruct (settings_agree _ _ Hc') as (_ & -> & _). reflexivity.
Qed.

(** X7.  Title sharing is settled at [compose].  Switched off before
    [compose], no child is given the title; switched off after it, the
    children composed with sharing on keep the title they were given. *)
Theorem shareTitle_counts_at_compose (subChartArray : list T) (c : CompositeChart any T) :
  let sized :=
    [Chart.Height (height (super c)); Chart.Width (width (super c));
     Chart.Margins (margins (super c))] in
  let options := [Chart.Options (_childOptions c)] in
  children (compose subChartArray (snd (shareTitle [false] c))) =
    map (after_calls (sized ++ options)) subChartArray /\
  (_shareTitle c = true ->
   children (snd (shareTitle [false] (compose subChartArray c))) =
     map (after_calls (sized ++ [Chart.Title (title (super c))] ++ options)) subChartArray).
Proof.
  cbv zeta. split.
  - rewrite compose_unfold. reflexivity.
  - intros Hshare. rewrite compose_unfold. unfold pushed_down. rewrite Hshare. reflexivity.
Qed.

(** X8.  With colours shared, [legendables()] is a read that writes: every
    child is given the composite's colours once, in the order of the child
    list, and nothing else about the composite changes. *)
Theorem legendables_shares_colours (c : CompositeChart any T) :
  _shareColors c = true ->
  let c' := snd (legendables c) in
  let shared := Chart.Colors (colors (super c)) in
  _children c' = map (Chart.call shared) (_children c) /\
  calls c' = calls c ++ map (fun i => (i, shared)) (seq 0 (length (_children c))) /\
  settings c' = settings c.
Proof.
  intros Hshare.
  assert (Hl : legendables c =
               (concat (map (fun child => Chart.legendables (coloured c child)) (_children c)),
                set_calls (calls c ++ concat (map (colour_calls c) (seq 0 (length (_children c)))))
                  (set_children (map (coloured c) (_children c)) c))).
  { unfold legendables. etransitivity; [apply (legendables_reached c); lia|].
    rewrite firstn_all, drop_all, app_nil_r. reflexivity. }
  cbv zeta. rewrite Hl. cbn [snd _children calls set_calls set_children].
  unfold coloured, colour_calls. rewrite Hshare.
  rewrite concat_singletons. repeat split.
Qed.

Lemma filter_sublist {A : Type} (f : A -> bool) (l : list A) :
  List.filter f l `sublist_of` l.
Proof.
  induction l as [|x l IH]; [constructor|].
  simpl. destruct (f x); [by apply sublist_skip | by apply sublist_cons].
Qed.

(** Every child is on one side of the two and on one only. *)
Lemma sides_partition (l : list T) :
  length (List.filter (fun child => negb (Chart.useRightYAxis child)) l)
  + length (List.filter (fun child => Chart.useRightYAxis child) l) = length l /\
  l ≡ₚ List.filter (fun child => negb (Chart.useRightYAxis child)) l
       ++ List.filter (fun child => Chart.useRightYAxis child) l.
Proof.
  induction l as [|x l [IHlen IHperm]]; [done|].
  simpl. destruct (Chart.useRightYAxis x); simpl.
  - split; [lia|]. rewrite <- Permutation_middle. by constructor.
  - split; [lia|]. by constructor.
Qed.

(** X9.  The two sides split the children: each child is on the left or on
    the right and never on both, the sizes of the two sides add up to the
    number of children, and the two sides together are the children, each
    side in the order of the child list. *)
Theorem sides_split_the_children (c : CompositeChart any T) :
  (forall child, child ∈ _children c <->
                 child ∈ _leftYAxisChildren c \/ child ∈ _rightYAxisChildren c) /\
  (forall child, ~ (child ∈ _leftYAxisChildren c /\ child ∈ _rightYAxisChildren c)) /\
  length (_leftYAxisChildren c) + length (_rightYAxisChildren c) = length (_children c) /\
  _children c ≡ₚ _leftYAxisChildren c ++ _rightYAxisChildren c /\
  _leftYAxisChildren c `sublist_of` _children c /\
  _rightYAxisChildren c `sublist_of` _children c.
Proof.
  unfold _leftYAxisChildren, _rightYAxisChildren.
  destruct (sides_partition (_children c)) as [Hlen Hperm].
  split; [|split; [|split; [exact Hlen | split; [exact Hperm|]]]].
  - intros child. rewrite !list_elem_of_In, !filter_In.
    destruct (Chart.useRightYAxis child); simpl; intuition congruence.
  - intros child. rewrite !list_elem_of_In, !filter_In.
    destruct (Chart.useRightYAxis child); simpl; intuition congruence.
  - split; apply filter_sublist.
Qed.

End CompositeMore.

(** ** Entries that are no numbers *)

Section ExtremesMore.
Import composite_chart.

(** What does not compare with itself is [undefined] or NaN, and both loops
    pass it over. *)
Lemma not_comparable_cases v : ge v v = false -> v = Undefined \/ v = NaN.
Proof.
  destruct v as [| | |q|]; unfold ge, cmp; simpl; auto; try discriminate.
  rewrite (proj1 (Qeq_alt q q) (Qeq_refl q)). discriminate.
Qed.

Lemma min_step_skip m v : ge v v = false -> d3.min_step m v = m.
Proof.
  intros Hv. unfold d3.min_step.
  destruct (not_comparable_cases _ Hv) as [->| ->]; [reflexivity|].
  unfold gt, ge, cmp. cbn [ToNumber not_null andb]. by destruct (ToNumber m), m.
Qed.

Lemma max_step_skip m v : ge v v = false -> d3.max_step m v = m.
Proof.
  intros Hv. unfold d3.max_step.
  destruct (not_comparable_cases _ Hv) as [->| ->]; [reflexivity|].
  unfold lt, ge, cmp. cbn [ToNumber not_null andb]. by destruct (ToNumber m), m.
Qed.

Lemma min_fold_skip l : forall m,
  fold_left d3.min_step l m = fold_left d3.min_step (List.filter (fun v => ge v v) l) m.
Proof.
  induction l as [|v l IH]; intros m; [reflexivity|].
  simpl. destruct (ge v v) eqn:Hv; simpl; [apply IH|].
  rewrite (min_step_skip _ _ Hv). apply IH.
Qed.

Lemma max_fold_skip l : forall m,
  fold_left d3.max_step l m = fold_left d3.max_step (List.filter (fun v => ge v v) l) m.
Proof.
  induction l as [|v l IH]; intros m; [reflexivity|].
  simpl. destruct (ge v v) eqn:Hv; simpl; [apply IH|].
  rewrite (max_step_skip _ _ Hv). apply IH.
Qed.

(** [d3.min] and [d3.max] of the entries that are numbers: an entry that is
    a number and bounds all entries that are, or [undefined] when none is. *)
Lemma d3_min_numbers l :
  (Forall (fun v => ~ comparable v) l -> d3.min l = Undefined) /\
  (Exists comparable l ->
   d3.min l ∈ l /\ comparable (d3.min l) /\
   Forall (fun v => comparable v -> ge v (d3.min l) = true) l).
Proof.
  unfold d3.min. rewrite min_fold_skip. split.
  - intros Hnone. replace (List.filter (fun v => ge v v) l) with (@nil value); [reflexivity|].
    symmetry. induction Hnone as [|v l Hv _ IH]; [reflexivity|].
    simpl. unfold comparable in Hv. destruct (ge v v); [done | exact IH].
  - intros Hsome.
    assert (Hne : List.filter (fun v => ge v v) l <> []).
    { apply Exists_exists in Hsome as (v & Hin & Hv).
      intros Hnil. assert (Hf : In v (List.filter (fun v => ge v v) l))
        by (apply filter_In; split; [by apply list_elem_of_In | exact Hv]).
      rewrite Hnil in Hf. destruct Hf. }
    assert (Hall : Forall comparable (List.filter (fun v => ge v v) l)).
    { apply Forall_forall. intros v Hin. apply list_elem_of_In, filter_In in Hin. apply Hin. }
    destruct (d3_min_spec _ Hne Hall) as [Hin Hlow]. fold (d3.min (List.filter (fun v => ge v v) l)) in *.
    set (m := d3.min (List.filter (fun v => ge v v) l)) in *.
    apply list_elem_of_In, filter_In in Hin as [Hin Hm].
    split; [by apply list_elem_of_In|]. split; [exact Hm|].
    apply Forall_forall. intros v Hv Hcomp.
    rewrite Forall_forall in Hlow. apply Hlow.
    apply list_elem_of_In, filter_In. split; [by apply list_elem_of_In | exact Hcomp].
Qed.

Lemma d3_max_numbers l :
  (Forall (fun v => ~ comparable v) l -> d3.max l = Undefined) /\
  (Exists comparable l ->
   d3.max l ∈ l /\ comparable (d3.max l) /\
   Forall (fun v => comparable v -> ge (d3.max l) v = true) l).
Proof.
  unfold d3.max. rewrite max_fold_skip. split.
  - intros Hnone. replace (List.filter (fun v => ge v v) l) with (@nil value); [reflexivity|].
    symmetry. induction Hnone as [|v l Hv _ IH]; [reflexivity|].
    simpl. unfold comparable in Hv. destruct (ge v v); [done | exact IH].
  - intros Hsome.
    assert (Hne : List.filter (fun v => ge v v) l <> []).
    { apply Exists_exists in Hsome as (v & Hin & Hv).
      intros Hnil. assert (Hf : In v (List.filter (fun v => ge v v) l))
        by (apply filter_In; split; [by apply list_elem_of_In | exact Hv]).
      rewrite Hnil in Hf. destruct Hf. }
    assert (Hall : Forall comparable (List.filter (fun v => ge v v) l)).
    { apply Forall_forall. intros v Hin. apply list_elem_of_In, filter_In in Hin. apply Hin. }
    destruct (d3_max_spec _ Hne Hall) as [Hin Hhigh]. fold (d3.max (List.filter (fun v => ge v v) l)) in *.
    set (m := d3.max (List.filter (fun v => ge v v) l)) in *.
    apply list_elem_of_In, filter_In in Hin as [Hin Hm].
    split; [by apply list_elem_of_In|]. split; [exact Hm|].
    apply Forall_forall. intros v Hv Hcomp.
    rewrite Forall_forall in Hhigh. apply Hhigh.
    apply list_elem_of_In, filter_In. split; [by apply list_elem_of_In | exact Hcomp].
Qed.

Context {any T : Type} `{!Chart.Contract any T}.

(** X10.  Children that report no number are passed over.  A side none of
    whose children reports a number as its minimum, a side with no child
    among them, has the minimum [undefined]; otherwise the minimum is a
    number that a child of the side reports and that no number reported on
    the side is below.  The same holds for the maximum before the padding is
    added, and with no number on the side the maximum is NaN. *)
Theorem side_extents_pass_over_no_numbers (s : Side) (c : CompositeChart any T) :
  (Forall (fun child => ~ comparable (Chart.yAxisMin child)) (sideChildren s c) ->
   sideMin s c = Undefined) /\
  (Exists (fun child => comparable (Chart.yAxisMin child)) (sideChildren s c) ->
   exists lowest,
     lowest ∈ sideChildren s c /\ comparable (Chart.yAxisMin lowest) /\
     sideMin s c = Chart.yAxisMin lowest /\
     Forall (fun child => comparable (Chart.yAxisMin child) ->
                          Js.ge (Chart.yAxisMin child) (Chart.yAxisMin lowest) = true)
       (sideChildren s c)) /\
  (Forall (fun child => ~ comparable (Chart.yAxisMax child)) (sideChildren s c) ->
   sideMax s c = NaN) /\
  (Exists (fun child => comparable (Chart.yAxisMax child)) (sideChildren s c) ->
   exists highest,
     highest ∈ sideChildren s c /\ comparable (Chart.yAxisMax highest) /\
     sideMax s c = Js.add (Chart.yAxisMax highest) (yAxisPadding (super c)) /\
     Forall (fun child => comparable (Chart.yAxisMax child) ->
                          Js.ge (Chart.yAxisMax highest) (Chart.yAxisMax child) = true)
       (sideChildren s c)).
Proof.
  rewrite sideMin_unfold, sideMax_unfold.
  set (l := sideChildren s c).
  destruct (d3_min_numbers (map (fun child => Chart.yAxisMin child) l)) as [Hnone Hsome].
  destruct (d3_max_numbers (map (fun child => Chart.yAxisMax child) l)) as [Hnone' Hsome'].
  split; [|split; [|split]].
  - intros Hno. apply Hnone. by apply Forall_map.
  - intros Hex. destruct Hsome as (Hin & Hcomp & Hlow).
    { apply Exists_exists in Hex as (child & Hin & Hc). apply Exists_exists.
      exists (Chart.yAxisMin child). split; [|exact Hc].
      apply list_elem_of_In, in_map, list_elem_of_In, Hin. }
    apply list_elem_of_In, in_map_iff in Hin as (lowest & Hlowest & Hin).
    exists lowest. split; [by apply list_elem_of_In|].
    rewrite Hlowest. split; [exact Hcomp|]. split; [reflexivity|].
    by apply Forall_map in Hlow.
  - intros Hno. rewrite Hnone'; [reflexivity | by apply Forall_map].
  - intros Hex. destruct Hsome' as (Hin & Hcomp & Hhigh).
    { apply Exists_exists in Hex as (child & Hin & Hc). apply Exists_exists.
      exists (Chart.yAxisMax child). split; [|exact Hc].
      apply list_elem_of_In, in_map, list_elem_of_In, Hin. }
    apply list_elem_of_In, in_map_iff in Hin as (highest & Hhighest & Hin).
    exists highest. split; [by apply list_elem_of_In|].
    rewrite Hhighest. split; [exact Hcomp|]. split; [reflexivity|].
    by apply Forall_map in Hhigh.
Qed.

End ExtremesMore.

(** ** The grid lines *)

Section AxesFacts.
Import composite_chart composite_axes.
Context {any T : Type} `{!Chart.Contract any T}.
Local Open Scope Q_scope.

(** X19.  Grid lines come from one axis at most.  They come from the left
    axis when it has a child and the flag is not [true]; else from the
    right axis when that has a child; so with children on the left only and
    the flag [true] no grid lines are rendered at all, and with children on
    the right only the flag is of no account. *)
Theorem grid_lines_axis (c : CompositeChart any T) :
  (_leftYAxisChildren c <> [] -> _rightAxisGridLines c <> Some true ->
   _prepareYAxis_gridLines c = Some LeftSide) /\
  (_rightYAxisChildren c <> [] ->
   _leftYAxisChildren c = [] \/ _rightAxisGridLines c = Some true ->
   _prepareYAxis_gridLines c = Some RightSide) /\
  (_rightYAxisChildren c = [] ->
   _leftYAxisChildren c = [] \/ _rightAxisGridLines c = Some true ->
   _prepareYAxis_gridLines c = None).
Proof.
  unfold _prepareYAxis_gridLines.
  destruct (_leftYAxisChildren c) as [|l ls], (_rightYAxisChildren c) as [|r rs],
    (_rightAxisGridLines c) as [[]|]; cbn; repeat split; intros; intuition congruence.
Qed.

(** X20.  Asking for the flag takes the grid lines back to the left axis:
    on a composite with children on both sides, after
    [useRightAxisGridLines(true)] the grid lines come from the right axis,
    and after a following [useRightAxisGridLines()] from the left. *)
Theorem reading_the_flag_moves_the_grid_lines (c : CompositeChart any T) :
  _leftYAxisChildren c <> [] -> _rightYAxisChildren c <> [] ->
  let set := snd (useRightAxisGridLines [true] c) in
  let read := snd (useRightAxisGridLines [] set) in
  _prepareYAxis_gridLines set = Some RightSide /\
  _prepareYAxis_gridLines read = Some LeftSide.
Proof.
  intros Hl Hr. cbv zeta. unfold _prepareYAxis_gridLines, _leftYAxisChildren, _rightYAxisChildren in *.
  cbn. destruct (List.filter _ (_children c)) as [|l ls]; [done|].
  destruct (List.filter _ (_children c)) as [|r rs]; [done|]. by cbn.
Qed.

End AxesFacts.

(** ** Rendering the children *)

Section RenderingFacts.

Import composite_chart GridChart composite_grid.
Context {any T G : Type}.
Context `{!Chart.Contract any T} `{!GridChart.Contract any T} `{!CoordinateGridMixin any G}.

Lemma invoke_all_unfold (i : nat) (ms : list (Call any)) : forall s : Composite any T G,
  invoke_all i ms s =
  {| chart := set_children (alter (after ms) i (_children (chart s))) (chart s);
     mixin := mixin s; _rightY := _rightY s; _rightYAxis := _rightYAxis s;
     issued := issued s ++ map (pair i) ms |}.
Proof.
  induction ms as [|m ms IH]; intros s.
  - cbn. rewrite app_nil_r. rewrite (list_alter_id (fun x => x)) by reflexivity.
    destruct s as [c ? ? ? ?]. by destruct c.
  - change (invoke_all i (m :: ms) s) with (invoke_all i ms (invoke i m s)).
    rewrite IH. cbn [invoke chart mixin _rightY _rightYAxis issued _children set_children map].
    rewrite list_alter_alter_eq, <- app_assoc. reflexivity.
Qed.

Lemma invoke_all_snoc (i : nat) (m : Call any) (ms : list (Call any)) (s : Composite any T G) :
  invoke i m (invoke_all i ms s) = invoke_all i (ms ++ [m]) s.
Proof. unfold invoke_all. rewrite fold_left_app. reflexivity. Qed.

Lemma invoke_all_if (b : bool) (i : nat) (ms ms' : list (Call any)) (s : Composite any T G) :
  (if b then invoke_all i ms s else invoke_all i ms' s) = invoke_all i (if b then ms else ms') s.
Proof. by destruct b. Qed.

Lemma invoke_all_frame (i : nat) (ms : list (Call any)) (s : Composite any T G) :
  mixin (invoke_all i ms s) = mixin s /\
  _rightY (invoke_all i ms s) = _rightY s /\
  _rightYAxis (invoke_all i ms s) = _rightYAxis s /\
  _shareColors (chart (invoke_all i ms s)) = _shareColors (chart s) /\
  super (chart (invoke_all i ms s)) = super (chart s).
Proof. rewrite invoke_all_unfold. repeat split. Qed.

Lemma ask_invoke_all (question : T -> bool) (i : nat) (ms : list (Call any))
    (s : Composite any T G) (child : T) :
  _children (chart s) !! i = Some child ->
  ask question i (invoke_all i ms s) = question (after ms child).
Proof.
  intros Hi. rewrite invoke_all_unfold. unfold ask.
  cbn [chart _children set_children]. rewrite list_lookup_alter_eq, Hi. reflexivity.
Qed.

Lemma generateChildG_all (i : nat) (ms : list (Call any)) (s : Composite any T G) :
  _generateChildG i (invoke_all i ms s) =
  invoke_all i (ms ++ [GenerateG (g (mixin s)); GAttrClass (sub_class i)]) s.
Proof.
  unfold _generateChildG. cbv zeta.
  destruct (invoke_all_frame i ms s) as (-> & _).
  rewrite 2!invoke_all_snoc, <- app_assoc. reflexivity.
Qed.

Lemma frame_agree (s s' : Composite any T G) :
  frame s' = frame s ->
  mixin s' = mixin s /\ _rightY s' = _rightY s /\ _rightYAxis s' = _rightYAxis s /\
  _shareColors (chart s') = _shareColors (chart s) /\ super (chart s') = super (chart s).
Proof.
  intros Heq.
  pose proof (f_equal mixin Heq). pose proof (f_equal _rightY Heq).
  pose proof (f_equal _rightYAxis Heq).
  pose proof (f_equal (fun s => _shareColors (chart s)) Heq).
  pose proof (f_equal (fun s => super (chart s)) Heq).
  auto.
Qed.

(** Walking a list and altering each place on the way by a function of the
    place and of what is found there. *)
Lemma imap_reached (f : nat -> T -> T) (h : T -> T) (l : list T) (n : nat) (child : T) :
  l !! n = Some child -> h child = f n child ->
  alter h n (imap f (take n l) ++ drop n l) = imap f (take (S n) l) ++ drop (S n) l.
Proof.
  intros Hn Hh. pose proof (lookup_lt_Some _ _ _ Hn) as Hlt.
  rewrite (take_S_r _ _ _ Hn), imap_app, (drop_S _ _ _ Hn), <- app_assoc.
  rewrite alter_app_r_alt by (rewrite length_imap, length_take; lia).
  rewrite length_imap, length_take, Nat.min_l, Nat.sub_diag by lia.
  cbn. rewrite Nat.add_0_r, Hh. reflexivity.
Qed.

Lemma lookup_unreached (f : nat -> T -> T) (l : list T) (n : nat) :
  (imap f (take n l) ++ drop n l) !! n = l !! n.
Proof.
  destruct (decide (n <= length l)).
  - rewrite lookup_app_r by (rewrite length_imap, length_take; lia).
    rewrite length_imap, length_take, Nat.min_l, Nat.sub_diag, lookup_drop by lia.
    f_equal. lia.
  - rewrite take_ge, drop_ge, app_nil_r by lia.
    rewrite list_lookup_imap. by rewrite (lookup_ge_None_2 l n) by lia.
Qed.

(** A loop whose every turn has the child it visits take the calls made out
    for it has served every child once, in the order of the list. *)
Lemma for_range_served (calls : nat -> T -> list (Call any))
    (body : nat -> Composite any T G -> Composite any T G) (s : Composite any T G) :
  (forall i s' child, frame s' = frame s -> _children (chart s') !! i = Some child ->
     body i s' = invoke_all i (calls i child) s') ->
  forall n, n <= length (_children (chart s)) ->
  for_range n body s =
  {| chart := set_children (imap (fun i child => after (calls i child) child)
                              (take n (_children (chart s))) ++ drop n (_children (chart s)))
                (chart s);
     mixin := mixin s; _rightY := _rightY s; _rightYAxis := _rightYAxis s;
     issued := issued s ++ concat (imap (fun i child => map (pair i) (calls i child))
                                     (take n (_children (chart s)))) |}.
Proof.
  intros Hbody. induction n as [|n IH]; intros Hn.
  - cbn. rewrite app_nil_r, drop_0. destruct s as [c ? ? ? ?]. by destruct c.
  - rewrite for_range_S, IH by lia.
    destruct (lookup_lt_is_Some_2 (_children (chart s)) n) as [child Hchild]; [lia|].
    rewrite (Hbody n _ child).
    + rewrite invoke_all_unfold. cbn [chart mixin _rightY _rightYAxis issued _children set_children].
      rewrite (imap_reached (fun i child => after (calls i child) child)
                 (after (calls n child)) _ _ child Hchild eq_refl).
      assert (concat (imap (fun i child => map (pair i) (calls i child))
                        (take (S n) (_children (chart s)))) =
              concat (imap (fun i child => map (pair i) (calls i child))
                        (take n (_children (chart s)))) ++ map (pair n) (calls n child)) as ->.
      { rewrite (take_S_r _ _ _ Hchild), imap_app, concat_app.
        rewrite length_take, Nat.min_l by lia. cbn [imap concat].
        rewrite Nat.add_0_r, app_nil_r. reflexivity. }
      rewrite <- app_assoc. reflexivity.
    + reflexivity.
    + cbn [chart _children set_children]. rewrite lookup_unreached. exact Hchild.
Qed.

Lemma for_range_all_served calls body (s : Composite any T G) :
  (forall i s' child, frame s' = frame s -> _children (chart s') !! i = Some child ->
     body i s' = invoke_all i (calls i child) s') ->
  for_range (length (_children (chart s))) body s = served calls s.
Proof.
  intros Hbody. rewrite (for_range_served calls body s Hbody) by lia.
  rewrite firstn_all, drop_all, app_nil_r. reflexivity.
Qed.

(** One [let] of a loop body, once its head is a state reached by calls on
    the child at hand. *)
Ltac enter_let :=
  lazymatch goal with
  | |- (let s := ?E in @?K s) = ?R =>
      let t := eval cbv beta in (K E) in change (t = R)
  end.

Lemma mixin_invoke_all i ms (s : Composite any T G) : mixin (invoke_all i ms s) = mixin s.
Proof. apply invoke_all_frame. Qed.

Lemma rightY_invoke_all i ms (s : Composite any T G) : _rightY (invoke_all i ms s) = _rightY s.
Proof. apply invoke_all_frame. Qed.

Lemma rightYAxis_invoke_all i ms (s : Composite any T G) :
  _rightYAxis (invoke_all i ms s) = _rightYAxis s.
Proof. apply invoke_all_frame. Qed.

Lemma shareColors_invoke_all i ms (s : Composite any T G) :
  _shareColors (chart (invoke_all i ms s)) = _shareColors (chart s).
Proof. apply invoke_all_frame. Qed.

Lemma super_invoke_all i ms (s : Composite any T G) :
  super (chart (invoke_all i ms s)) = super (chart s).
Proof. apply invoke_all_frame. Qed.

Create Rewrite HintDb rendering.
#[local] Hint Rewrite invoke_all_snoc mixin_invoke_all rightY_invoke_all rightYAxis_invoke_all
  shareColors_invoke_all super_invoke_all generateChildG_all invoke_all_if : rendering.

Lemma after_keeps_side (ms : list (Call any)) : forall child : T,
  (forall m child, Chart.useRightYAxis (deliver m child) = Chart.useRightYAxis child) ->
  Chart.useRightYAxis (after ms child) = Chart.useRightYAxis child.
Proof.
  induction ms as [|m ms IH]; intros child Hlaw; [reflexivity|].
  cbn. change (fold_left _ ms ?c) with (after ms c). rewrite IH, Hlaw by assumption. reflexivity.
Qed.

Lemma plotData_body (i : nat) (s : Composite any T G) (child : T) :
  _children (chart s) !! i = Some child ->
  let before :=
    (if has_g child then [] else [GenerateG (g (mixin s)); GAttrClass (sub_class i)])
    ++ (if _shareColors (chart s) then [Shared (Chart.Colors (colors (super (chart s))))] else [])
    ++ [X (x (mixin s)); XAxis (xAxis (mixin s))] in
  (let s := if negb (ask has_g i s) then _generateChildG i s else s in
   let s := if _shareColors (chart s)
            then invoke i (Shared (Chart.Colors (colors (super (chart s))))) s else s in
   let s := invoke i (X (x (mixin s))) s in
   let s := invoke i (XAxis (xAxis (mixin s))) s in
   let s := if ask Chart.useRightYAxis i s
            then let s := invoke i (Y (_rightY s)) s in
                 invoke i (YAxis (_rightYAxis s)) s
            else let s := invoke i (Y (y (mixin s))) s in
                 invoke i (YAxis (yAxis (mixin s))) s in
   let s := invoke i PlotData s in
   invoke i ActivateRenderlets s) =
  invoke_all i
    (before
     ++ (if Chart.useRightYAxis (after before child)
         then [Y (_rightY s); YAxis (_rightYAxis s)]
         else [Y (y (mixin s)); YAxis (yAxis (mixin s))])
     ++ [PlotData; ActivateRenderlets]) s.
Proof.
  intros Hi before.
  change s with (invoke_all i [] s) at 1 2 3.
  rewrite (ask_invoke_all _ _ _ _ _ Hi). autorewrite with rendering. enter_let.
  autorewrite with rendering. enter_let.
  autorewrite with rendering. enter_let.
  autorewrite with rendering.
  match goal with |- context [invoke_all i ?ms s] => assert (ms = before) as -> end.
  { unfold before. cbn [negb after fold_left]. destruct (has_g child), (_shareColors (chart s)); reflexivity. }
  enter_let. rewrite (ask_invoke_all _ _ _ _ _ Hi).
  destruct (Chart.useRightYAxis (after before child));
    autorewrite with rendering; cbv zeta; autorewrite with rendering;
    rewrite <- !app_assoc; reflexivity.
Qed.

Lemma generateG_body (i : nat) (s : Composite any T G) (child : T) :
  _children (chart s) !! i = Some child ->
  let gen := [GenerateG (g (mixin s)); GAttrClass (sub_class i)] in
  let dim := if has_dimension (after gen child) then [] else [Dimension (dimension (mixin s))] in
  let grp := if has_group (after (gen ++ dim) child) then [] else [Group (group (mixin s))] in
  (let s := _generateChildG i s in
   let s := if negb (ask has_dimension i s)
            then invoke i (Dimension (dimension (mixin s))) s else s in
   let s := if negb (ask has_group i s)
            then invoke i (Group (group (mixin s))) s else s in
   let s := invoke i (ChartGroup (chartGroup (mixin s))) s in
   let s := invoke i (Svg (svg (mixin s))) s in
   let s := invoke i (XUnits (xUnits (mixin s))) s in
   let s := invoke i (TransitionDuration (transitionDuration (mixin s))
                        (transitionDelay (mixin s))) s in
   let s := invoke i (ParentBrushOn (brushOn (mixin s))) s in
   let s := invoke i (BrushOn false) s in
   let s := invoke i (RenderTitle (renderTitle (mixin s))) s in
   invoke i (ElasticX (elasticX (mixin s))) s) =
  invoke_all i
    (gen ++ dim ++ grp
     ++ [ChartGroup (chartGroup (mixin s)); Svg (svg (mixin s)); XUnits (xUnits (mixin s));
         TransitionDuration (transitionDuration (mixin s)) (transitionDelay (mixin s));
         ParentBrushOn (brushOn (mixin s)); BrushOn false;
         RenderTitle (renderTitle (mixin s)); ElasticX (elasticX (mixin s))]) s.
Proof.
  intros Hi gen dim grp.
  change s with (invoke_all i [] s) at 1.
  autorewrite with rendering. change ([] ++ ?l) with l. fold gen. enter_let.
  rewrite (ask_invoke_all _ _ _ _ _ Hi). autorewrite with rendering.
  match goal with |- context [invoke_all i ?ms s] => assert (ms = gen ++ dim) as -> end.
  { unfold dim. destruct (has_dimension (after gen child)); [by rewrite app_nil_r | reflexivity]. }
  enter_let.
  rewrite (ask_invoke_all _ _ _ _ _ Hi). autorewrite with rendering.
  match goal with |- context [invoke_all i ?ms s] => assert (ms = (gen ++ dim) ++ grp) as -> end.
  { unfold grp. destruct (has_group (after (gen ++ dim) child)); [by rewrite app_nil_r | reflexivity]. }
  do 7 (enter_let; autorewrite with rendering). cbv zeta. autorewrite with rendering.
  rewrite <- !app_assoc. reflexivity.
Qed.

(** X22.  [plotData]: every child, in the order of the list, is given a [g] if it
    has none, the composite's colours exactly when colour sharing is on, the
    composite's x scale and x axis, and the y scale and y axis of its own
    side: the right ones if it uses the right axis, the left ones otherwise;
    then it plots and runs its renderlets.  Stated for children that do not
    change sides when they take a call. *)
Theorem plotData_serves_each_side (s : Composite any T G) :
  (forall m child, Chart.useRightYAxis (deliver m child) = Chart.useRightYAxis child) ->
  let calls (i : nat) (child : T) :=
    (if has_g child then [] else [GenerateG (g (mixin s)); GAttrClass (sub_class i)])
    ++ (if _shareColors (chart s) then [Shared (Chart.Colors (colors (super (chart s))))] else [])
    ++ [X (x (mixin s)); XAxis (xAxis (mixin s))]
    ++ (if Chart.useRightYAxis child
        then [Y (_rightY s); YAxis (_rightYAxis s)]
        else [Y (y (mixin s)); YAxis (yAxis (mixin s))])
    ++ [PlotData; ActivateRenderlets] in
  let s' := plotData s in
  _children (chart s') = imap (fun i child => after (calls i child) child) (_children (chart s)) /\
  issued s' = issued s ++ concat (imap (fun i child => map (pair i) (calls i child))
                                    (_children (chart s))) /\
  frame s' = frame s.
Proof.
  intros Hlaw calls s'.
  assert (s' = served calls s) as ->; [|by repeat split].
  unfold s', plotData. apply for_range_all_served.
  intros i s1 child Hframe Hi.
  etransitivity; [exact (plotData_body i s1 child Hi)|]. rewrite after_keeps_side by exact Hlaw.
  destruct (frame_agree _ _ Hframe) as (-> & -> & -> & -> & ->).
  unfold calls. rewrite <- !app_assoc. reflexivity.
Qed.

(** X23.  [_generateG]: the composite answers the [g] its base class answers, and
    every child, in the order of the list, generates its own [g] inside the
    composite's and is classed [sub _i] by its index; it is given the
    composite's dimension and group only if it then has none of its own, and
    always the composite's chart group, svg, x units, transition, title
    rendering and elasticity.  Its own brush is turned off, whatever it was,
    and it is told whether the composite's is on. *)
Theorem generateG_hands_down (s : Composite any T G) :
  let m := snd (super_generateG (mixin s)) in
  let calls (i : nat) (child : T) :=
    let gen := [GenerateG (g m); GAttrClass (sub_class i)] in
    let dim := if has_dimension (after gen child) then [] else [Dimension (dimension m)] in
    let grp := if has_group (after (gen ++ dim) child) then [] else [Group (group m)] in
    gen ++ dim ++ grp
    ++ [ChartGroup (chartGroup m); Svg (svg m); XUnits (xUnits m);
        TransitionDuration (transitionDuration m) (transitionDelay m);
        ParentBrushOn (brushOn m); BrushOn false;
        RenderTitle (renderTitle m); ElasticX (elasticX m)] in
  let s' := snd (_generateG s) in
  fst (_generateG s) = fst (super_generateG (mixin s)) /\
  _children (chart s') = imap (fun i child => after (calls i child) child) (_children (chart s)) /\
  issued s' = issued s ++ concat (imap (fun i child => map (pair i) (calls i child))
                                    (_children (chart s))) /\
  frame s' = frame (set_mixin m s).
Proof.
  intros m calls s'.
  assert (fst (_generateG s) = fst (super_generateG (mixin s)) /\
          s' = served calls (set_mixin m s)) as [Hg ->]; [|by repeat split].
  unfold s', m, _generateG. destruct (super_generateG (mixin s)) as [g0 m0] eqn:Hsuper.
  split; [reflexivity|]. cbn [snd fst].
  apply for_range_all_served.
  intros i s1 child Hframe Hi.
  etransitivity; [exact (generateG_body i s1 child Hi)|].
  destruct (frame_agree _ _ Hframe) as (-> & _). subst calls. cbn [mixin set_mixin].
  reflexivity.
Qed.

Lemma served_one (m : Call any) (s : Composite any T G) :
  served (fun _ _ => [m]) s = broadcast m s.
Proof.
  unfold served, broadcast. f_equal.
  - f_equal. apply (imap_const (deliver m)).
  - f_equal. rewrite (imap_seq_0 _ (fun i => [(i, m)])). apply concat_singletons.
Qed.

Lemma for_range_broadcast (m : Call any) (s : Composite any T G) :
  for_range (length (_children (chart s))) (fun i s => invoke i m s) s = broadcast m s.
Proof.
  rewrite <- served_one. apply for_range_all_served. reflexivity.
Qed.

(** X24.  The legend and the brush: [legendHighlight(d)] and [legendReset(d)] call
    the same on every child, once each and in the order of the list, and
    make no other call.  [fadeDeselectedArea(brushSelection)] does so only
    while the composite's brush is on; while it is off the children hear
    nothing. *)
Theorem legend_and_brush_reach_every_child (d : any) (s : Composite any T G) :
  legendHighlight d s = broadcast (LegendHighlight d) s /\
  legendReset d s = broadcast (LegendReset d) s /\
  fadeDeselectedArea d s = if brushOn (mixin s) then broadcast (FadeDeselectedArea d) s else s.
Proof.
  unfold legendHighlight, legendReset, fadeDeselectedArea.
  rewrite !for_range_broadcast. repeat split.
Qed.

(** X25.  The x extent covers the children of both sides.  When no child
    reports a number as its x minimum, [xAxisMin()] is [utils.subtract] of
    [undefined], the padding and its unit; otherwise it is [utils.subtract]
    of a number that a child reports and that no number any child reports,
    left or right, is below.  [xAxisMax()] is [utils.add] of the largest
    number reported in the same way. *)
Theorem x_extent_spans_every_child (s : Composite any T G) :
  let pad := xAxisPadding (mixin s) in
  let unit := xAxisPaddingUnit (mixin s) in
  (Forall (fun child => ~ comparable (GridChart.xAxisMin child)) (_children (chart s)) ->
   xAxisMin s = utils_subtract Undefined pad unit) /\
  (Exists (fun child => comparable (GridChart.xAxisMin child)) (_children (chart s)) ->
   exists lowest,
     lowest ∈ _children (chart s) /\ comparable (GridChart.xAxisMin lowest) /\
     xAxisMin s = utils_subtract (GridChart.xAxisMin lowest) pad unit /\
     Forall (fun child => comparable (GridChart.xAxisMin child) ->
                          Js.ge (GridChart.xAxisMin child) (GridChart.xAxisMin lowest) = true)
       (_children (chart s))) /\
  (Forall (fun child => ~ comparable (GridChart.xAxisMax child)) (_children (chart s)) ->
   xAxisMax s = utils_add Undefined pad unit) /\
  (Exists (fun child => comparable (GridChart.xAxisMax child)) (_children (chart s)) ->
   exists highest,
     highest ∈ _children (chart s) /\ comparable (GridChart.xAxisMax highest) /\
     xAxisMax s = utils_add (GridChart.xAxisMax highest) pad unit /\
     Forall (fun child => comparable (GridChart.xAxisMax child) ->
                          Js.ge (GridChart.xAxisMax highest) (GridChart.xAxisMax child) = true)
       (_children (chart s))).
Proof.
  cbv zeta. unfold xAxisMin, xAxisMax, _getAllXAxisMinFromChildCharts,
    _getAllXAxisMaxFromChildCharts.
  set (l := _children (chart s)).
  destruct (d3_min_numbers (map (fun child => GridChart.xAxisMin child) l)) as [Hnone Hsome].
  destruct (d3_max_numbers (map (fun child => GridChart.xAxisMax child) l)) as [Hnone' Hsome'].
  split; [|split; [|split]].
  - intros Hno. rewrite Hnone; [reflexivity | by apply Forall_map].
  - intros Hex. destruct Hsome as (Hin & Hcomp & Hlow).
    { apply Exists_exists in Hex as (child & Hin & Hc). apply Exists_exists.
      exists (GridChart.xAxisMin child). split; [|exact Hc].
      apply list_elem_of_In, in_map, list_elem_of_In, Hin. }
    apply list_elem_of_In, in_map_iff in Hin as (lowest & Hlowest & Hin).
    exists lowest. split; [by apply list_elem_of_In|].
    rewrite Hlowest. split; [exact Hcomp|]. split; [reflexivity|].
    by apply Forall_map in Hlow.
  - intros Hno. rewrite Hnone'; [reflexivity | by apply Forall_map].
  - intros Hex. destruct Hsome' as (Hin & Hcomp & Hhigh).
    { apply Exists_exists in Hex as (child & Hin & Hc). apply Exists_exists.
      exists (GridChart.xAxisMax child). split; [|exact Hc].
      apply list_elem_of_In, in_map, list_elem_of_In, Hin. }
    apply list_elem_of_In, in_map_iff in Hin as (highest & Hhighest & Hin).
    exists highest. split; [by apply list_elem_of_In|].
    rewrite Hhighest. split; [exact Hcomp|]. split; [reflexivity|].
    by apply Forall_map in Hhigh.
Qed.

End RenderingFacts.

(** ** More on the base read *)

Section AdapterMore.
Import c_f_simple_adapter.

Lemma data_unfold (_conf : ICFSimpleAdapterConf) (h : heap) :
  exists copies : heap,
    data _conf h =
    (all (group _conf),
     array_forEach (fun e h => put e "_value" (valueAccessor _conf h e) h)
       (all (group _conf)) (h ++ copies)).
Proof.
  unfold data.
  destruct (array_map_spread_extends (all (group _conf)) h) as [copies Hcopies].
  destruct (array_map _ (all (group _conf)) h) as [dropped h1]. simpl in Hcopies. subst h1.
  by exists copies.
Qed.

(** The walk leaves alone what it does not come by. *)
Lemma forEach_elsewhere (accessor : heap -> nat -> property) (r : nat) (array : list nat) :
  r ∉ array -> forall h : heap,
  array_forEach (fun e h => put e "_value" (accessor h e) h) array h !! r = h !! r.
Proof.
  induction array as [|e rest IH]; intros Hnot h; [reflexivity|].
  apply not_elem_of_cons in Hnot as [Hne Hnot]. simpl.
  rewrite IH by exact Hnot. apply put_other. congruence.
Qed.

(** X11.  The base read writes nowhere else: an object on the heap that is
    not among the records [all()] answers is after [data()] what it was
    before. *)
Theorem data_leaves_other_objects (_conf : ICFSimpleAdapterConf) (h : heap) (r : nat) :
  r ∉ all (group _conf) -> r < length h ->
  snd (data _conf h) !! r = h !! r.
Proof.
  intros Hnot Hr. destruct (data_unfold _conf h) as [copies ->]. cbn [snd].
  rewrite forEach_elsewhere by exact Hnot. by apply lookup_app_l.
Qed.

(** With the accessor [d => d.value], what is written is the [value] of the
    record, which the writes do not change. *)
Lemma forEach_default_keeps (r : nat) (o : object) (array : list nat) : forall (h : heap),
  h !! r = Some (<["_value" := get "value" o]> o) ->
  array_forEach (fun e h => put e "_value" (default_valueAccessor h e) h) array h !! r
  = Some (<["_value" := get "value" o]> o).
Proof.
  induction array as [|e rest IH]; intros h Hr; [exact Hr|].
  simpl. apply IH. destruct (decide (e = r)) as [->|Hne].
  - rewrite (put_same _ _ _ _ _ Hr). unfold default_valueAccessor. rewrite Hr. simpl.
    rewrite insert_insert_eq. f_equal. f_equal.
    unfold get. by rewrite lookup_insert_ne.
  - by rewrite put_other.
Qed.

Lemma forEach_default_writes (r : nat) (o : object) (array : list nat) : forall (h : heap),
  r ∈ array -> h !! r = Some o ->
  array_forEach (fun e h => put e "_value" (default_valueAccessor h e) h) array h !! r
  = Some (<["_value" := get "value" o]> o).
Proof.
  induction array as [|e rest IH]; intros h Hin Hr; [by apply elem_of_nil in Hin|].
  simpl. destruct (decide (e = r)) as [->|Hne].
  - apply forEach_default_keeps. rewrite (put_same _ _ _ _ _ Hr).
    unfold default_valueAccessor. by rewrite Hr.
  - apply IH; [|by rewrite put_other].
    apply elem_of_cons in Hin as [->|Hin]; [done | exact Hin].
Qed.

(** X12.  With the accessor the constructor configures, [d => d.value], the
    read gives every record of the source a [_value] equal to its [value]
    ([undefined] when it has none) and changes nothing else of the record,
    however often the record occurs among those [all()] answers. *)
Theorem data_default_value (g : MinimalCFGroup) (h : heap) (r : nat) (o : object) :
  r ∈ all g -> h !! r = Some o ->
  let _conf := {| group := g; valueAccessor := default_valueAccessor |} in
  snd (data _conf h) !! r = Some (<["_value" := get "value" o]> o).
Proof.
  intros Hin Hr _conf. destruct (data_unfold _conf h) as [copies ->]. cbn [snd].
  apply forEach_default_writes; [exact Hin|].
  rewrite lookup_app_l; [exact Hr | by eapply lookup_lt_Some].
Qed.

(** X13.  Reading again changes no record of the source: after one
    [data()] with the accessor [d => d.value], a second [data()] hands back
    the same references and leaves every record of the source as the first
    read left it. *)
Theorem data_twice (g : MinimalCFGroup) (h : heap) (r : nat) (o : object) :
  r ∈ all g -> h !! r = Some o ->
  let _conf := {| group := g; valueAccessor := default_valueAccessor |} in
  let h' := snd (data _conf h) in
  fst (data _conf h') = fst (data _conf h) /\
  snd (data _conf h') !! r = h' !! r.
Proof.
  intros Hin Hr _conf h'.
  assert (Hr' : h' !! r = Some (<["_value" := get "value" o]> o)).
  { unfold h'. destruct (data_unfold _conf h) as [copies ->]. cbn [snd].
    apply forEach_default_writes; [exact Hin|].
    rewrite lookup_app_l; [exact Hr | by eapply lookup_lt_Some]. }
  split.
  - destruct (data_unfold _conf h') as [? ->], (data_unfold _conf h) as [? ->]. reflexivity.
  - rewrite Hr'. destruct (data_unfold _conf h') as [copies ->]. cbn [snd].
    apply forEach_default_keeps.
    rewrite lookup_app_l; [exact Hr' | by eapply lookup_lt_Some].
Qed.

End AdapterMore.

(** ** The data count *)

Section DataCountFacts.
Import js_string data_count.

Lemma append_assoc (a b c : string) : (a +:+ b) +:+ c = a +:+ b +:+ c.
Proof.
  induction a as [|x a IH]; [reflexivity|].
  change (String x ((a +:+ b) +:+ c) = String x (a +:+ b +:+ c)). by rewrite IH.
Qed.

Lemma append_nil_l (s : string) : EmptyString +:+ s = s.
Proof. reflexivity. Qed.

Lemma strip_prefix_app (p s : string) : strip_prefix p (p +:+ s) = Some s.
Proof.
  induction p as [|a p IH]; [by destruct s|].
  simpl. by rewrite Ascii.eqb_refl.
Qed.

Lemma split_at_first_unfold (p s : string) :
  split_at_first p s =
  match strip_prefix p s with
  | Some after => Some (EmptyString, after)
  | None =>
      match s with
      | EmptyString => None
      | String c s' =>
          match split_at_first p s' with
          | Some (before, after) => Some (String c before, after)
          | None => None
          end
      end
  end.
Proof. by destruct s. Qed.

Lemma split_at_first_here (p s : string) : split_at_first p (p +:+ s) = Some (EmptyString, s).
Proof. by rewrite split_at_first_unfold, strip_prefix_app. Qed.

(** A search string that begins with a character is not found in a stretch
    free of that character. *)
Lemma split_at_first_skip (c : ascii) (p a s : string) :
  mentions c a = false ->
  split_at_first (String c p) (a +:+ s) =
  match split_at_first (String c p) s with
  | Some (before, after) => Some (a +:+ before, after)
  | None => None
  end.
Proof.
  induction a as [|x a IH]; intros Hfree.
  - change (EmptyString +:+ s) with s.
    destruct (split_at_first (String c p) s) as [[b af]|]; reflexivity.
  - cbn [mentions] in Hfree. apply orb_false_iff in Hfree as [Hx Hfree].
    change (String x a +:+ s) with (String x (a +:+ s)).
    rewrite split_at_first_unfold. cbn [strip_prefix]. rewrite Hx, (IH Hfree).
    destruct (split_at_first (String c p) s) as [[b af]|]; reflexivity.
Qed.

Lemma GetSubstitution_plain (matched before after replacement : string) :
  mentions "$" replacement = false ->
  GetSubstitution matched before after replacement = replacement.
Proof.
  induction replacement as [|x r IH]; intros Hfree; [reflexivity|].
  cbn [mentions] in Hfree. apply orb_false_iff in Hfree as [Hx Hfree].
  cbn [GetSubstitution]. rewrite Ascii.eqb_sym, Hx, (IH Hfree). reflexivity.
Qed.

Lemma ToBoolean_true (s : string) : ToBoolean s = true <-> s <> EmptyString.
Proof.
  unfold ToBoolean. destruct (String.eqb_spec s ""); simpl; split; congruence.
Qed.

Lemma not_empty_eqb (s : string) : s <> EmptyString -> negb (String.eqb s "") = true.
Proof. intros Hs. by apply ToBoolean_true. Qed.

Lemma invoke_keeps_templates (m : Method) (c : DataCount) :
  (all (_html c) <> EmptyString -> all (_html (invoke m c)) <> EmptyString) /\
  (some (_html c) <> EmptyString -> some (_html (invoke m c)) <> EmptyString).
Proof.
  destruct m as [[|o rest]|[|f rest]|[|cf rest]|[|ga rest]]; cbn; try tauto.
  destruct (options_all o) as [a|], (options_some o) as [s|]; cbn;
    try destruct (ToBoolean a) eqn:Ha; try destruct (ToBoolean s) eqn:Hs; cbn;
    try apply ToBoolean_true in Ha; try apply ToBoolean_true in Hs; tauto.
Qed.

Lemma run_keeps_templates (methods : list Method) : forall c : DataCount,
  (all (_html c) <> EmptyString -> all (_html (run methods c)) <> EmptyString) /\
  (some (_html c) <> EmptyString -> some (_html (run methods c)) <> EmptyString).
Proof.
  induction methods as [|m methods IH]; intros c; [by split|].
  destruct (invoke_keeps_templates m c) as [Ha Hs], (IH (invoke m c)) as [Ha' Hs'].
  split; intros Hc; [apply Ha', Ha, Hc | apply Hs', Hs, Hc].
Qed.

(** X14.  A template once set is never unset.  Whatever calls of [html],
    [formatNumber], [crossfilter] and [groupAll] follow, a template that is
    not empty stays not empty.  So once the [some] template is set,
    [_doRender] never falls back to the elements of class [total-count] and
    [filter-count]: with [crossfilter] and [groupAll] set it writes the HTML
    of the root, and with either of them [null] it throws. *)
Theorem templates_are_never_cleared (methods : list Method) (c : DataCount) :
  (all (_html c) <> EmptyString -> all (_html (run methods c)) <> EmptyString) /\
  (some (_html c) <> EmptyString ->
   some (_html (run methods c)) <> EmptyString /\
   (forall cf ga,
      _crossfilter (run methods c) = Some cf -> _groupAll (run methods c) = Some ga ->
      exists markup, _doRender (run methods c) = Some (RootHtml markup)) /\
   (_crossfilter (run methods c) = None \/ _groupAll (run methods c) = None ->
    _doRender (run methods c) = None)).
Proof.
  destruct (run_keeps_templates methods c) as [Ha Hs].
  split; [exact Ha|]. intros Hc. specialize (Hs Hc). split; [exact Hs|]. split.
  - intros cf ga Hcf Hga. unfold _doRender. rewrite Hcf, Hga, (not_empty_eqb _ Hs).
    destruct (strict_eq _ _ && _); eauto.
  - unfold _doRender. intros [-> | ->]; [reflexivity|].
    by destruct (_crossfilter (run methods c)).
Qed.

(** X15.  [html] takes the templates it is given and keeps the rest.  Each
    of the two fields of the argument is looked at by itself: a template
    that is not empty replaces the one it names, and a field that is missing
    or empty leaves the template it names as it was, whatever the other
    field holds.  The call answers the chart and changes nothing else of it,
    and [html()] afterwards answers the two templates and changes
    nothing. *)
Theorem html_reads_back (o : HTMLOptionsArgument) (rest : list HTMLOptionsArgument)
    (c : DataCount) :
  let c' := snd (html (o :: rest) c) in
  fst (html (o :: rest) c) = This /\
  (forall a, options_all o = Some a -> a <> EmptyString -> all (_html c') = a) /\
  (options_all o = None \/ options_all o = Some EmptyString ->
   all (_html c') = all (_html c)) /\
  (forall s, options_some o = Some s -> s <> EmptyString -> some (_html c') = s) /\
  (options_some o = None \/ options_some o = Some EmptyString ->
   some (_html c') = some (_html c)) /\
  _formatNumber c' = _formatNumber c /\
  _crossfilter c' = _crossfilter c /\
  _groupAll c' = _groupAll c /\
  html [] c' = (Value (_html c'), c').
Proof.
  destruct o as [oa os]. cbv zeta. cbn [html fst snd options_all options_some].
  assert (Hempty : ToBoolean EmptyString = false) by reflexivity.
  destruct oa as [a|], os as [s|];
    try destruct (ToBoolean a) eqn:Ha; try destruct (ToBoolean s) eqn:Hs;
    cbn [set_html _html all some _formatNumber _crossfilter _groupAll];
    repeat split; try (intros ? [= <-] ?); try (intros [[=]|[= ->]]);
    try reflexivity; try congruence;
    try (exfalso; match goal with H : ToBoolean ?x = false, N : ?x <> EmptyString |- _ =>
           apply ToBoolean_true in N; congruence end).
Qed.

(** X16.  The [all] template waits for everything to be selected.  While
    the two counts differ, what [_doRender] writes does not depend on the
    [all] template; when they are equal and the [all] template is set, it
    does not depend on the [some] template. *)
Theorem all_template_waits (c : DataCount) (cf : CF) (ga : MinimalGroupAll) :
  _crossfilter c = Some cf -> _groupAll c = Some ga ->
  (strict_eq (size cf) (value ga) = false ->
   forall a, _doRender (set_html {| all := a; some := some (_html c) |} c) = _doRender c) /\
  (strict_eq (size cf) (value ga) = true -> all (_html c) <> EmptyString ->
   forall s, _doRender (set_html {| all := all (_html c); some := s |} c) = _doRender c).
Proof.
  intros Hcf Hga. unfold _doRender, set_html. cbn. rewrite Hcf, Hga. split.
  - intros -> a. reflexivity.
  - intros -> Ha s. cbn. rewrite (not_empty_eqb _ Ha). reflexivity.
Qed.

(** [%filter-count] is not where [%total-count] begins. *)
Lemma not_total_count (s : string) :
  strip_prefix "%total-count" (String "%" ("filter-count" +:+ s)) = None.
Proof. reflexivity. Qed.

Lemma skip_filter_count (s : string) :
  split_at_first "%total-count" ("%filter-count" +:+ s) =
  match split_at_first "%total-count" s with
  | Some (before, after) => Some ("%filter-count" +:+ before, after)
  | None => None
  end.
Proof.
  change ("%filter-count" +:+ s) with (String "%" ("filter-count" +:+ s)).
  rewrite split_at_first_unfold, not_total_count.
  rewrite (split_at_first_skip "%" "total-count" "filter-count" _ eq_refl).
  by destruct (split_at_first "%total-count" s) as [[??]|].
Qed.

(** X17.  Both placeholders are filled in, each at its first occurrence.  A
    [some] template that reads [%filter-count] and then [%total-count], with
    no per cent sign before and between them, is written with the formatted
    count of the selected records and the formatted total in their place,
    when the counts differ and the formatted numbers hold no dollar sign;
    what follows the two placeholders is written as it stands, further
    placeholders included. *)
Theorem placeholders_are_filled_in (c : DataCount) (cf : CF) (ga : MinimalGroupAll)
    (a b rest : string) :
  _crossfilter c = Some cf -> _groupAll c = Some ga ->
  strict_eq (size cf) (value ga) = false ->
  some (_html c) = a +:+ "%filter-count" +:+ b +:+ "%total-count" +:+ rest ->
  mentions "%" a = false -> mentions "%" b = false ->
  mentions "$" (_formatNumber c (size cf)) = false ->
  mentions "$" (_formatNumber c (value ga)) = false ->
  _doRender c =
  Some (RootHtml (a +:+ _formatNumber c (value ga) +:+ b +:+ _formatNumber c (size cf) +:+ rest)).
Proof.
  intros Hcf Hga Hne Hsome Ha Hb Htot Hsel.
  unfold _doRender. rewrite Hcf, Hga, Hne. cbn [andb].
  assert (Hset : negb (String.eqb (some (_html c)) "") = true).
  { apply not_empty_eqb. rewrite Hsome. destruct a; discriminate. }
  rewrite Hset, Hsome. f_equal. f_equal.
  set (total := _formatNumber c (size cf)) in *.
  set (selected := _formatNumber c (value ga)) in *.
  assert (Hfirst : replace "%total-count" total
                     (a +:+ "%filter-count" +:+ b +:+ "%total-count" +:+ rest)
                   = a +:+ "%filter-count" +:+ b +:+ total +:+ rest).
  { unfold replace.
    rewrite (split_at_first_skip "%" "total-count" a _ Ha), skip_filter_count.
    rewrite (split_at_first_skip "%" "total-count" b _ Hb).
    rewrite (split_at_first_here "%total-count" rest).
    rewrite (GetSubstitution_plain _ _ _ _ Htot).
    rewrite !append_assoc, append_nil_l. reflexivity. }
  rewrite Hfirst. unfold replace.
  rewrite (split_at_first_skip "%" "filter-count" a _ Ha).
  rewrite (split_at_first_here "%filter-count" (b +:+ total +:+ rest)).
  rewrite (GetSubstitution_plain _ _ _ _ Hsel).
  rewrite !append_assoc, append_nil_l. reflexivity.
Qed.

End DataCountFacts.

(** ** Exceptions *)

Section ErrorFacts.
Import errors.

(** X18.  An exception always has a message: a message that is missing or
    empty is replaced by ['Unexpected internal error'], any other message is
    kept, [toString()] answers the message, and an
    [InvalidStateException] is made like an [Exception] from its first
    argument. *)
Theorem exception_has_a_message (msg : option string) (arguments : list string) :
  message (new_Exception msg) <> EmptyString /\
  toString (new_Exception msg) = message (new_Exception msg) /\
  (forall m, msg = Some m -> m <> EmptyString -> message (new_Exception msg) = m) /\
  (msg = None \/ msg = Some EmptyString ->
   message (new_Exception msg) = "Unexpected internal error") /\
  new_InvalidStateException arguments = new_Exception (head arguments).
Proof.
  unfold new_Exception. split; [|split; [reflexivity|split; [|split; [|reflexivity]]]].
  - destruct msg as [m|]; [|discriminate]. cbn.
    destruct (String.eqb_spec m ""); cbn; [discriminate | assumption].
  - intros m -> Hm. cbn. by destruct (String.eqb_spec m "").
  - by intros [->| ->].
Qed.
End ErrorFacts.

(** ** The heat map *)

Section HeatMapFacts.
Import heat_map.
Local Open Scope Q_scope.

Lemma element_last (pre rest : list value) (d : value) :
  element ((pre ++ [d]) ++ rest) (length (pre ++ [d]) - 1) = d.
Proof.
  unfold element. rewrite length_app, <- app_assoc. cbn [length app].
  replace (length pre + 1 - 1)%nat with (length pre + 0)%nat by lia.
  rewrite app_nth2_plus. reflexivity.
Qed.

Lemma filter_from_uniq (rest : list value) : forall (pre : list value) (d : value),
  filter_from uniq ((pre ++ [d]) ++ rest) (length (pre ++ [d])) rest = changes d rest.
Proof.
  induction rest as [|e rest IH]; intros pre d; [reflexivity|].
  cbn [filter_from changes]. unfold uniq at 1.
  rewrite element_last.
  replace (length (pre ++ [d]) =? 0)%nat with false
    by (symmetry; apply Nat.eqb_neq; rewrite length_app; cbn; lia).
  cbn [orb].
  replace ((pre ++ [d]) ++ e :: rest) with (((pre ++ [d]) ++ [e]) ++ rest)
    by (by rewrite <- !app_assoc).
  replace (S (length (pre ++ [d]))) with (length ((pre ++ [d]) ++ [e]))
    by (rewrite !length_app; cbn; lia).
  rewrite (IH (pre ++ [d]) e). reflexivity.
Qed.

Lemma array_filter_uniq (d : value) (rest : list value) :
  array_filter uniq (d :: rest) = d :: changes d rest.
Proof.
  unfold array_filter. cbn [filter_from]. unfold uniq at 1. cbn [Nat.eqb orb].
  f_equal. exact (filter_from_uniq rest [] d).
Qed.

Lemma changes_ascending (qs : list Q) : forall p : Q,
  Forall (fun q => p <= q) qs -> StronglySorted Qle qs ->
  exists qs',
    changes (Num p) (map Num qs) = map Num qs' /\
    Forall (fun q => p < q) qs' /\ StronglySorted Qlt qs' /\
    sublist qs' qs /\
    Forall (fun q => q == p \/ exists q', q' ∈ qs' /\ q == q') qs.
Proof.
  induction qs as [|q qs IH]; intros p Hp Hsorted.
  - exists []. repeat split; constructor.
  - apply StronglySorted_inv in Hsorted as [Hsorted Hq].
    apply Forall_cons in Hp as [Hpq Hp].
    destruct (IH q Hq Hsorted) as (qs' & Heq & Hlow & Hstrict & Hsub & Hcover).
    cbn [map changes]. unfold loose_neq, strict_eq. cbn [ToNumber cmp].
    destruct (p ?= q) eqn:Hcmp.
    + apply Qeq_alt in Hcmp. exists qs'. cbn [negb]. split; [exact Heq|].
      split; [|split; [exact Hstrict|split; [by apply sublist_cons|]]].
      * eapply Forall_impl; [exact Hlow|]. intros x Hx. cbn in Hx. rewrite Hcmp. exact Hx.
      * apply Forall_cons. split; [left; by symmetry|].
        eapply Forall_impl; [exact Hcover|]. intros x [Hx|Hx]; [left|right; exact Hx].
        rewrite Hx. by symmetry.
    + apply Qlt_alt in Hcmp. exists (q :: qs'). cbn [negb map]. rewrite Heq.
      split; [reflexivity|].
      split; [|split; [|split; [by apply sublist_skip|]]].
      * apply Forall_cons. split; [exact Hcmp|].
        eapply Forall_impl; [exact Hlow|]. intros x Hx. cbn in Hx. lra.
      * constructor; [exact Hstrict | exact Hlow].
      * apply Forall_cons. split; [right; exists q; split; [left | reflexivity]|].
        eapply Forall_impl; [exact Hcover|]. intros x [Hx|(x' & Hin & Hx)]; right.
        -- exists q. split; [left | exact Hx].
        -- exists x'. split; [by right | exact Hx].
    + apply Qgt_alt in Hcmp. lra.
Qed.

(** X26.  The values of the rows and columns.  Of an array of finite numbers in
    ascending order, [filter(uniq)] keeps one of every value: what it keeps
    is in strictly ascending order, is taken from the array in its order,
    and holds a number equal to every number of the array. *)
Theorem uniq_keeps_one_of_each (qs : list Q) :
  StronglySorted Qle qs ->
  exists qs',
    array_filter uniq (map Num qs) = map Num qs' /\
    StronglySorted Qlt qs' /\
    sublist qs' qs /\
    Forall (fun q => exists q', q' ∈ qs' /\ q == q') qs.
Proof.
  intros Hsorted. destruct qs as [|q qs]; [exists []; repeat split; constructor|].
  apply StronglySorted_inv in Hsorted as [Hsorted Hq].
  destruct (changes_ascending qs q Hq Hsorted) as (qs' & Heq & Hlow & Hstrict & Hsub & Hcover).
  exists (q :: qs'). cbn [map]. rewrite array_filter_uniq, Heq.
  split; [reflexivity|]. split; [by constructor|]. split; [by apply sublist_skip|].
  apply Forall_cons. split; [exists q; split; [left | reflexivity]|].
  eapply Forall_impl; [exact Hcover|]. intros x [Hx|(x' & Hin & Hx)].
  - exists q. split; [left | exact Hx].
  - exists x'. split; [by right | exact Hx].
Qed.

End HeatMapFacts.

(** ** The further properties at work *)

Section AlignmentAtWork.

Import composite_chart.
Local Open Scope Q_scope.

(** A left range [1 .. 1] against the right range [0 .. 2]. *)
Lemma alignment_of_a_flat_range_witness :
  1 - 1 == 0 /\
  let r := _alignYAxisRanges (Num 1) (Num 1) (Num 0) (Num 2) in
  ~ (finite (ryAxisMin r) /\ finite (ryAxisMax r)).
Proof.
  assert (Hflat : 1 - 1 == 0) by (vm_compute; reflexivity).
  split; [exact Hflat|].
  exact (proj1 (alignment_of_a_flat_range 1 1 0 2) Hflat).
Defined.

Example flat_range_aligned :
  _alignYAxisRanges (Num 1) (Num 1) (Num 0) (Num 2) =
  {| lyAxisMin := Num 0; lyAxisMax := Num 1; ryAxisMin := Num 0; ryAxisMax := Infinity |}.
Proof. vm_compute. reflexivity. Qed.

End AlignmentAtWork.

Section CompositeAtWork.

Import composite_chart plain_chart composite_axes axes_example.

(** A fresh composite shares the title; switched off after [compose], the
    line and the bars keep the title they were given. *)
Lemma shareTitle_counts_at_compose_witness :
  _shareTitle fresh = true /\
  children (snd (shareTitle [false] (compose [line; bars] fresh))) =
  map (after_calls [Chart.Height "200"; Chart.Width "300"; Chart.Margins "margins";
                    Chart.Title "title"; Chart.Options "{}"]) [line; bars].
Proof.
  assert (Hshare : _shareTitle fresh = true) by reflexivity.
  split; [exact Hshare|].
  exact (proj2 (shareTitle_counts_at_compose [line; bars] fresh) Hshare).
Defined.

(** The line and the bars sharing colours: asking for the legend gives both
    the composite's colours. *)
Lemma legendables_shares_colours_witness :
  _shareColors sharing = true /\
  _children (snd (legendables sharing)) =
  map (Chart.call (Chart.Colors "colors")) (_children sharing).
Proof.
  assert (Hshare : _shareColors sharing = true) by reflexivity.
  split; [exact Hshare|].
  exact (proj1 (legendables_shares_colours sharing Hshare)).
Defined.

(** The bars report a number, so the right side of the composed charts has
    a minimum that one of its children reports. *)
Lemma side_extents_pass_over_no_numbers_witness :
  Exists (fun child : PlainChart => comparable (Chart.yAxisMin child))
    (sideChildren RightSide composed) /\
  exists lowest,
    lowest ∈ sideChildren RightSide composed /\ comparable (Chart.yAxisMin lowest) /\
    sideMin RightSide composed = Chart.yAxisMin lowest /\
    Forall (fun child => comparable (Chart.yAxisMin child) ->
                         Js.ge (Chart.yAxisMin child) (Chart.yAxisMin lowest) = true)
      (sideChildren RightSide composed).
Proof.
  assert (Hsome : Exists (fun child : PlainChart => comparable (Chart.yAxisMin child))
                    (sideChildren RightSide composed))
    by (vm_compute; repeat constructor).
  split; [exact Hsome|].
  exact (proj1 (proj2 (side_extents_pass_over_no_numbers RightSide composed)) Hsome).
Defined.

(** A composite with no child has no number on either side. *)
Example extents_of_no_child :
  sideMin LeftSide fresh = Undefined /\ sideMax LeftSide fresh = NaN.
Proof. split; reflexivity. Qed.

(** The line and the bars: grid lines come from the left axis, from the
    right one once asked, and from the left one again once the flag has
    been asked for. *)
Lemma grid_lines_axis_witness :
  (_rightYAxisChildren right_lined <> [] /\ _rightAxisGridLines right_lined = Some true) /\
  _prepareYAxis_gridLines right_lined = Some RightSide.
Proof.
  assert (Hright : _rightYAxisChildren right_lined <> []) by (vm_compute; discriminate).
  assert (Hflag : _rightAxisGridLines right_lined = Some true) by reflexivity.
  split; [auto|].
  exact (proj1 (proj2 (grid_lines_axis right_lined)) Hright (or_intror Hflag)).
Defined.

Lemma reading_the_flag_moves_the_grid_lines_witness :
  (_leftYAxisChildren composed <> [] /\ _rightYAxisChildren composed <> []) /\
  _prepareYAxis_gridLines (snd (useRightAxisGridLines [true] composed)) = Some RightSide /\
  _prepareYAxis_gridLines
    (snd (useRightAxisGridLines [] (snd (useRightAxisGridLines [true] composed))))
  = Some LeftSide.
Proof.
  assert (Hleft : _leftYAxisChildren composed <> []) by (vm_compute; discriminate).
  assert (Hright : _rightYAxisChildren composed <> []) by (vm_compute; discriminate).
  split; [auto|].
  exact (reading_the_flag_moves_the_grid_lines composed Hleft Hright).
Defined.

End CompositeAtWork.

Section ErrorsAtWork.

Import errors.

(** An empty message gives way like a missing one. *)
Lemma exception_has_a_message_witness :
  (Some EmptyString = None \/ Some EmptyString = Some EmptyString) /\
  message (new_Exception (Some EmptyString)) = "Unexpected internal error".
Proof.
  assert (Hempty : Some EmptyString = None \/ Some EmptyString = Some EmptyString)
    by (right; reflexivity).
  split; [exact Hempty|].
  exact (proj1 (proj2 (proj2 (proj2 (exception_has_a_message (Some EmptyString) [])))) Hempty).
Defined.

Example invalid_state :
  message (new_InvalidStateException ["Mandatory attribute chart.group is missing"; "ignored"])
  = "Mandatory attribute chart.group is missing" /\
  message (new_InvalidStateException []) = "Unexpected internal error".
Proof. split; reflexivity. Qed.

End ErrorsAtWork.

Section AdapterAtWork.

Import c_f_simple_adapter adapter_example.

(** Of two records on the heap the source holds the first: the base read
    leaves the second as it was. *)
Lemma data_leaves_other_objects_witness :
  ((1%nat ∉ all (group one_record_conf)) /\ 1 < length two_records) /\
  snd (data one_record_conf two_records) !! 1%nat = two_records !! 1%nat.
Proof.
  assert (Hnot : 1%nat ∉ all (group one_record_conf))
    by (vm_compute; intros Hin; inversion Hin as [|? ? ? Hnil]; inversion Hnil).
  assert (Hr : 1 < length two_records) by (vm_compute; lia).
  split; [auto|].
  exact (data_leaves_other_objects one_record_conf two_records 1 Hnot Hr).
Defined.

Lemma data_default_value_witness :
  (0%nat ∈ [0%nat] /\
   one_record !! 0%nat = Some {[ "key" := Number (Num 1); "value" := Number (Num 2) ]}) /\
  snd (data one_record_conf one_record) !! 0%nat =
  Some (<["_value" := Number (Num 2)]>
          {[ "key" := Number (Num 1); "value" := Number (Num 2) ]}).
Proof.
  assert (Hin : 0%nat ∈ all {| all := [0%nat] |}) by apply list_elem_of_here.
  assert (Hr : one_record !! 0%nat
               = Some {[ "key" := Number (Num 1); "value" := Number (Num 2) ]})
    by reflexivity.
  split; [auto|].
  exact (data_default_value {| all := [0%nat] |} one_record 0 _ Hin Hr).
Defined.

Lemma data_twice_witness :
  (0%nat ∈ [0%nat] /\
   one_record !! 0%nat = Some {[ "key" := Number (Num 1); "value" := Number (Num 2) ]}) /\
  let h' := snd (data one_record_conf one_record) in
  fst (data one_record_conf h') = fst (data one_record_conf one_record) /\
  snd (data one_record_conf h') !! 0%nat = h' !! 0%nat.
Proof.
  assert (Hin : 0%nat ∈ all {| all := [0%nat] |}) by apply list_elem_of_here.
  assert (Hr : one_record !! 0%nat
               = Some {[ "key" := Number (Num 1); "value" := Number (Num 2) ]})
    by reflexivity.
  split; [auto|].
  exact (data_twice {| all := [0%nat] |} one_record 0 _ Hin Hr).
Defined.

End AdapterAtWork.

Section DataCountAtWork.

Import js_string data_count data_count_example.

(** The counter of the example has its [some] template set: whatever calls
    follow, it stays set, and with the crossfilter and the group still in
    place the root's HTML is written. *)
Lemma templates_are_never_cleared_witness :
  some (_html counter) <> EmptyString /\
  let c := run [Html [{| options_all := Some ""; options_some := Some "" |}];
                FormatNumber [digits]] counter in
  some (_html c) <> EmptyString /\
  exists markup, _doRender c = Some (RootHtml markup).
Proof.
  assert (Hset : some (_html counter) <> EmptyString) by (vm_compute; discriminate).
  split; [exact Hset|].
  destruct (proj2 (templates_are_never_cleared
                     [Html [{| options_all := Some ""; options_some := Some "" |}];
                      FormatNumber [digits]] counter) Hset) as (Hkept & Hroot & _).
  split; [exact Hkept|].
  exact (Hroot {| size := Num 1000 |} {| value := Num 42 |} eq_refl eq_refl).
Defined.

(** After [crossfilter(null)] there is nothing to render from. *)
Example render_without_crossfilter :
  _doRender (run [Crossfilter [None]] counter) = None.
Proof. reflexivity. Qed.

(** An argument with the [all] template alone: it is taken, and the [some]
    template stays. *)
Lemma html_reads_back_witness :
  (options_all {| options_all := Some "All"; options_some := None |} = Some "All" /\
   "All" <> EmptyString /\
   options_some {| options_all := Some "All"; options_some := None |} = None) /\
  let c' := snd (html [{| options_all := Some "All"; options_some := None |}] counter) in
  all (_html c') = "All" /\ some (_html c') = some (_html counter).
Proof.
  assert (Ha : "All" <> EmptyString) by discriminate.
  split; [auto|].
  destruct (html_reads_back {| options_all := Some "All"; options_some := None |} [] counter)
    as (_ & Hall & _ & _ & Hsome & _).
  split; [exact (Hall "All" eq_refl Ha) | exact (Hsome (or_introl eq_refl))].
Defined.

(** 42 of 1000 records are selected: the [all] template is of no account. *)
Lemma all_template_waits_witness :
  (_crossfilter counter = Some {| size := Num 1000 |} /\
   _groupAll counter = Some {| value := Num 42 |} /\
   strict_eq (Num 1000) (Num 42) = false) /\
  _doRender (set_html {| all := "Everything"; some := some (_html counter) |} counter)
  = _doRender counter.
Proof.
  assert (Hcf : _crossfilter counter = Some {| size := Num 1000 |}) by reflexivity.
  assert (Hga : _groupAll counter = Some {| value := Num 42 |}) by reflexivity.
  assert (Hne : strict_eq (Num 1000) (Num 42) = false) by reflexivity.
  split; [auto|].
  exact (proj1 (all_template_waits counter _ _ Hcf Hga) Hne "Everything").
Defined.

Lemma placeholders_are_filled_in_witness :
  (_crossfilter counter = Some {| size := Num 1000 |} /\
   _groupAll counter = Some {| value := Num 42 |} /\
   strict_eq (Num 1000) (Num 42) = false /\
   some (_html counter)
   = "" +:+ "%filter-count" +:+ " out of " +:+ "%total-count" +:+ " records selected" /\
   mentions "%" "" = false /\ mentions "%" " out of " = false /\
   mentions "$" (_formatNumber counter (Num 1000)) = false /\
   mentions "$" (_formatNumber counter (Num 42)) = false) /\
  _doRender counter =
  Some (RootHtml ("" +:+ _formatNumber counter (Num 42) +:+ " out of "
                  +:+ _formatNumber counter (Num 1000) +:+ " records selected")).
Proof.
  assert (Hcf : _crossfilter counter = Some {| size := Num 1000 |}) by reflexivity.
  assert (Hga : _groupAll counter = Some {| value := Num 42 |}) by reflexivity.
  assert (Hne : strict_eq (Num 1000) (Num 42) = false) by reflexivity.
  assert (Hsome : some (_html counter)
                  = "" +:+ "%filter-count" +:+ " out of " +:+ "%total-count"
                    +:+ " records selected") by reflexivity.
  assert (Ha : mentions "%" "" = false) by reflexivity.
  assert (Hb : mentions "%" " out of " = false) by reflexivity.
  assert (Htot : mentions "$" (_formatNumber counter (Num 1000)) = false)
    by (vm_compute; reflexivity).
  assert (Hsel : mentions "$" (_formatNumber counter (Num 42)) = false)
    by (vm_compute; reflexivity).
  split; [auto 10|].
  exact (placeholders_are_filled_in counter _ _ "" " out of " " records selected"
           Hcf Hga Hne Hsome Ha Hb Htot Hsel).
Defined.

Example counter_rendered :
  _doRender counter = Some (RootHtml "42 out of 1000 records selected").
Proof. vm_compute. reflexivity. Qed.

(** Only the first occurrence of a placeholder is filled in, and a dollar
    sign in the number is read as a pattern. *)
Example replace_once :
  replace "%total-count" "1,000" "%total-count of %total-count" = "1,000 of %total-count" /\
  replace "%total-count" "US$$ 5" "%total-count" = "US$ 5".
Proof. split; vm_compute; reflexivity. Qed.

End DataCountAtWork.

Section RenderingAtWork.

Import composite_chart plain_chart GridChart composite_grid grid_example.

(** The children of the example stay on their side whatever they are
    called, and [plotData] leaves the composite's settings alone. *)
Lemma plotData_serves_each_side_witness :
  (forall (m : Call string) (child : GridPlain),
     Chart.useRightYAxis (deliver m child) = Chart.useRightYAxis child) /\
  issued (plotData on_grid) =
  [(0%nat, GenerateG "g"); (0%nat, GAttrClass "sub _0"); (0%nat, X "x"); (0%nat, XAxis "xAxis");
   (0%nat, Y "y"); (0%nat, YAxis "yAxis"); (0%nat, PlotData); (0%nat, ActivateRenderlets);
   (1%nat, GenerateG "g"); (1%nat, GAttrClass "sub _1"); (1%nat, X "x"); (1%nat, XAxis "xAxis");
   (1%nat, Y "rightY"); (1%nat, YAxis "rightYAxis"); (1%nat, PlotData);
   (1%nat, ActivateRenderlets)].
Proof.
  assert (Hlaw : forall (m : Call string) (child : GridPlain),
            Chart.useRightYAxis (deliver m child) = Chart.useRightYAxis child)
    by (intros m child; destruct m; reflexivity).
  split; [exact Hlaw|].
  rewrite (proj1 (proj2 (plotData_serves_each_side on_grid Hlaw))).
  vm_compute. reflexivity.
Defined.

(** The line has a dimension of its own and keeps it; the bars are given the
    composite's. *)
Example generateG_of_the_example :
  map (fun child => (own_dimension child, own_group child, own_g child))
    (_children (chart (snd (_generateG on_grid))))
  = [(Some "by day", Some "group", Some "g"); (Some "dimension", Some "group", Some "g")].
Proof. vm_compute. reflexivity. Qed.

(** Both children report numbers along x: the extent runs from the lowest
    to the highest of both sides. *)
Lemma x_extent_spans_every_child_witness :
  Exists (fun child : GridPlain => comparable (GridChart.xAxisMin child))
    (_children (chart on_grid)) /\
  exists lowest,
    lowest ∈ _children (chart on_grid) /\ comparable (GridChart.xAxisMin lowest) /\
    xAxisMin on_grid = Js.sub (GridChart.xAxisMin lowest) (Num 1) /\
    Forall (fun child => comparable (GridChart.xAxisMin child) ->
                         Js.ge (GridChart.xAxisMin child) (GridChart.xAxisMin lowest) = true)
      (_children (chart on_grid)).
Proof.
  assert (Hsome : Exists (fun child : GridPlain => comparable (GridChart.xAxisMin child))
                    (_children (chart on_grid)))
    by (vm_compute; repeat constructor).
  split; [exact Hsome|].
  exact (proj1 (proj2 (x_extent_spans_every_child on_grid)) Hsome).
Defined.

Example x_extent_of_the_example :
  xAxisMin on_grid = Num (-1) /\ xAxisMax on_grid = Num 21.
Proof. split; vm_compute; reflexivity. Qed.

End RenderingAtWork.

Section HeatMapAtWork.

Import heat_map.
Local Open Scope Q_scope.

(** The sorted values 1, 1, 2: one of each is kept. *)
Lemma uniq_keeps_one_of_each_witness :
  StronglySorted Qle [1; 1; 2] /\
  exists qs',
    array_filter uniq (map Num [1; 1; 2]) = map Num qs' /\
    StronglySorted Qlt qs' /\
    sublist qs' [1; 1; 2] /\
    Forall (fun q => exists q', q' ∈ qs' /\ q == q') [1; 1; 2].
Proof.
  assert (Hsorted : StronglySorted Qle [1; 1; 2])
    by (repeat constructor; vm_compute; discriminate).
  split; [exact Hsorted|].
  exact (uniq_keeps_one_of_each [1; 1; 2] Hsorted).
Defined.

(** Values that are not sorted keep their repetitions. *)
Example uniq_of_unsorted :
  array_filter uniq [Num 1; Num 1; Num 2; Num 1] = [Num 1; Num 2; Num 1].
Proof. vm_compute. reflexivity. Qed.

End HeatMapAtWork.
